(** * timed-msg: the relative-duration formatter and its timer loop

    A shallow embedding of [src/components/TimedMsg.vue]: the module-level
    function [getDurationData] and the component's [wrapClass],
    [updateStrings] and [preset], followed by the properties the
    specification states about them.

    Numbers.  Every number the component handles is either an integer
    (a millisecond time stamp, a count of seconds) or the [NaN] that
    [Date.prototype.getTime] returns for an invalid date.  Integers are
    modelled as [Z]; inside the safe-integer range the double arithmetic
    of the source is exact on them. *)

From Stdlib Require Import ZArith List Bool Lia.
From Stdlib Require Import Strings.String Strings.Ascii Numbers.DecimalString.
Import ListNotations.

Open Scope string_scope.
Open Scope Z_scope.

(** ** JavaScript numbers *)

Module JS.

Inductive number : Type :=
| Int (z : Z)
| NaN.

Definition sub (a b : number) : number :=
  match a, b with
  | Int x, Int y => Int (x - y)
  | _, _ => NaN
  end.

Definition mul (a b : number) : number :=
  match a, b with
  | Int x, Int y => Int (x * y)
  | _, _ => NaN
  end.

(** [a / b].  Both quotients of the program are passed through
    [Math.floor] before anything reads them, so the quotient is kept
    already floored; no divisor of the program is zero. *)
Definition div (a b : number) : number :=
  match a, b with
  | Int x, Int y => if y =? 0 then NaN else Int (x / y)
  | _, _ => NaN
  end.

(** [Math.floor] *)
Definition floor (a : number) : number := a.

(** [a % b]: the sign follows the dividend. *)
Definition rem (a b : number) : number :=
  match a, b with
  | Int x, Int y => if y =? 0 then NaN else Int (Z.rem x y)
  | _, _ => NaN
  end.

(** Comparisons: any comparison with [NaN] is false. *)
Definition ltb (a b : number) : bool :=
  match a, b with
  | Int x, Int y => x <? y
  | _, _ => false
  end.

Definition gtb (a b : number) : bool := ltb b a.

Definition leb (a b : number) : bool :=
  match a, b with
  | Int x, Int y => x <=? y
  | _, _ => false
  end.

(** [a === b] and [a !== b] *)
Definition strict_eqb (a b : number) : bool :=
  match a, b with
  | Int x, Int y => x =? y
  | _, _ => false
  end.

Definition strict_neb (a b : number) : bool := negb (strict_eqb a b).

(** The string a number takes inside a template literal. *)
Definition toString (a : number) : string :=
  match a with
  | Int z => NilZero.string_of_int (Z.to_int z)
  | NaN => "NaN"
  end.

End JS.

Import JS.

(** ** getDurationData *)

Module Duration.

Definition multipliers : list Z :=
  [31557600; 2629800; 604800; 86400; 3600; 60].

Definition units : list string :=
  ["year"; "month"; "week"; "day"; "hour"; "minute"].

(** [multipliers[a]]: an index past the end reads [undefined], which
    every arithmetic operator turns into [NaN]. *)
Definition multiplier (a : nat) : number :=
  match nth_error multipliers a with
  | Some m => Int m
  | None => NaN
  end.

(** [units[a]] *)
Definition unitName (a : nat) : string := nth a units "undefined".

(** The three locals the unit loop assigns. *)
Record LoopVars : Type := mkLoopVars {
  next : number;
  humanVal : number;
  unit : string
}.

(** [for (let a = 0; a < units.length; a += 1)] with its [break];
    [fuel] counts the indices still to visit. *)
Fixpoint findUnit (fuel a : nat) (diff : number) (isPast : bool)
         (v : LoopVars) : LoopVars :=
  match fuel with
  | O => v
  | S fuel' =>
      if gtb diff (multiplier a) then
        let extra := rem diff (multiplier a) in
        {| next := if gtb extra (Int 0) && negb isPast
                   then extra
                   else multiplier a;
           humanVal := div diff (multiplier a);
           unit := unitName a |}
      else findUnit fuel' (S a) diff isPast v
  end.

Record DurationData : Type := mkDurationData {
  dynamicDuration : string;
  diff : number;
  endWord : string;
  isPast : bool;
  prefixTxt : string;
  startWord : string;
  timeout : number
}.

(** Seconds from [now] to [when], before the sign is dropped. *)
Definition signedDiff (now : Z) (when : number) : number :=
  floor (div (sub when (Int now)) (Int 1000)).

(** The state of the locals when the loop has ended and [humanVal] has
    been floored (source line 139). *)
Definition bestUnit (d : number) (past : bool) : LoopVars :=
  let v := findUnit (List.length units) 0 d past
             {| next := Int 1; humanVal := d; unit := "second" |} in
  {| next := next v; humanVal := floor (humanVal v); unit := unit v |}.

(** The delay in seconds after the adjustment of lines 141-145. *)
Definition tickSeconds (d : number) (v : LoopVars) : number :=
  if strict_neb d (Int 0) && strict_eqb (rem (next v) (Int 60)) (Int 0)
  then Int 1
  else next v.

Definition getDurationData (now : Z) (when : number)
           (before after start end_ : string) : DurationData :=
  let diff0 := signedDiff now when in
  let isPast := ltb diff0 (Int 0) in
  let diff := if isPast then mul diff0 (Int (-1)) else diff0 in
  let endWord := if isPast then " " ++ end_ else EmptyString in
  let prefixTxt := if isPast then after else before in
  let startWord := if isPast then EmptyString else " " ++ start in
  let v := bestUnit diff isPast in
  let next := tickSeconds diff v in
  {| dynamicDuration :=
       if strict_eqb diff (Int 0)
       then "now"
       else toString (humanVal v) ++ " " ++ unit v
            ++ (if strict_neb (humanVal v) (Int 1) then "s" else EmptyString);
     diff := diff;
     endWord := endWord;
     isPast := isPast;
     prefixTxt := prefixTxt;
     startWord := if strict_eqb diff (Int 0) then EmptyString else startWord;
     timeout := mul next (Int 1000) |}.

End Duration.

(** ** The host: timers and the console *)

Module Host.

(** What the component can observe and change outside itself: the timers
    [setTimeout] has armed and that have neither fired nor been cleared
    (handle and delay in milliseconds; the callback is always
    [getStringUpdater(this)], a call of [updateStrings]), the next handle
    [setTimeout] gives out, and the lines written by [console.error]. *)
Record World : Type := mkWorld {
  pending : list (nat * number);
  nextId : nat;
  console : list string
}.

Definition setTimeout (delay : number) (w : World) : nat * World :=
  (nextId w,
   {| pending := pending w ++ [(nextId w, delay)];
      nextId := S (nextId w);
      console := console w |}).

Definition clearTimeout (h : nat) (w : World) : World :=
  {| pending := filter (fun t => negb (Nat.eqb (fst t) h)) (pending w);
     nextId := nextId w;
     console := console w |}.

Definition consoleError (msg : string) (w : World) : World :=
  {| pending := pending w;
     nextId := nextId w;
     console := console w ++ [msg] |}.

(** What [new Date(s)] can do: throw, or build a date object, whose time
    value is [NaN] when the string is not a date. *)
Inductive DateCtor : Type :=
| Throws
| DateObj (t : number).

End Host.

Import Host.

(** ** The TimedMsg component *)

Module TimedMsg.

Record Props : Type := mkProps {
  after : string;
  before : string;
  end_ : string;
  id : string;
  msgPrefix : string;
  msgSuffix : string;
  noticeAt : Z;
  start : string;
  warnAt : Z;
  when : string
}.

Record Data : Type := mkData {
  diff : number;
  endWord : string;
  humanPrefix : string;
  dynamicDuration : string;
  cutoffDateTime : string;
  isPast : bool;
  lastUpdated : Z;
  oldWhen : string;
  startWord : string;
  timestamp : number;
  timeouts : list nat
}.

(** [data()] *)
Definition data : Data :=
  {| diff := Int 0;
     endWord := EmptyString;
     humanPrefix := "Expires";
     dynamicDuration := EmptyString;
     cutoffDateTime := EmptyString;
     isPast := false;
     lastUpdated := 0;
     oldWhen := EmptyString;
     startWord := EmptyString;
     timestamp := Int 0;
     timeouts := [] |}.

(** The computed property [wrapClass]. *)
Definition wrapClass (p : Props) (d : Data) : string :=
  let tmp := "timed-msg" in
  if isPast d then tmp ++ " " ++ tmp ++ "--expired"
  else if (0 <? warnAt p) && leb (diff d) (Int (warnAt p))
  then tmp ++ " " ++ tmp ++ "--warning"
  else if (0 <? noticeAt p) && leb (diff d) (Int (noticeAt p))
  then tmp ++ " " ++ tmp ++ "--notice"
  else tmp.

(** [while (this.timeouts.length > 0) { clearTimeout(this.timeouts.shift()) }] *)
Fixpoint clearAll (ts : list nat) (w : World) : World :=
  match ts with
  | [] => w
  | to :: rest => clearAll rest (clearTimeout to w)
  end.

(** [updateStrings()]; [tmpNow] is what [Date.now()] returns during the
    call.  The unused local [t] of the source is left out. *)
Definition updateStrings (tmpNow : Z) (p : Props) (d : Data) (w : World)
  : Data * World :=
  let w1 := clearAll (timeouts d) w in
  let tmp := Duration.getDurationData tmpNow (timestamp d)
               (before p) (after p) (start p) (end_ p) in
  let armed :=
    if ltb (Duration.diff tmp) (Int 28800)
    then let (h, w2) := setTimeout (Duration.timeout tmp) w1 in ([h], w2)
    else ([], w1) in
  ({| diff := Duration.diff tmp;
      endWord := Duration.endWord tmp;
      humanPrefix := Duration.prefixTxt tmp;
      dynamicDuration := Duration.dynamicDuration tmp;
      cutoffDateTime := cutoffDateTime d;
      isPast := Duration.isPast tmp;
      lastUpdated := tmpNow;
      oldWhen := oldWhen d;
      startWord := Duration.startWord tmp;
      timestamp := timestamp d;
      timeouts := fst armed |},
   snd armed).

(** [getStringUpdater(context)]: the callback handed to [setTimeout].  It
    reads the component when it runs, not when it is built, so it takes
    the data and the host of that moment. *)
Definition getStringUpdater (p : Props) : Z -> Data -> World -> Data * World :=
  fun tmpNow d w => updateStrings tmpNow p d w.

Definition quote : string := String (ascii_of_nat 34) EmptyString.

(** The two lines preset can write to the console. *)
Definition couldNotConvert (s : string) : string :=
  "Could not convert " ++ quote ++ s ++ quote ++ " to Date object".

Definition couldNotConvertInvalid (s : string) : string :=
  "Could not convert " ++ quote ++ s ++ quote
  ++ " to Date object because input is invalid".

Section Preset.

(** The platform's date library: the [Date] constructor on a string,
    and the two locale formatters as functions of the time value. *)
Variable newDate : string -> DateCtor.
Variable toLocaleDateString : number -> string.
Variable toLocaleTimeString : number -> string.

(** [tmp.toString() === 'Invalid Date'] *)
Definition isInvalidDate (t : number) : bool :=
  match t with
  | NaN => true
  | Int _ => false
  end.

Definition setOldWhen (s : string) (d : Data) : Data :=
  {| diff := diff d;
     endWord := endWord d;
     humanPrefix := humanPrefix d;
     dynamicDuration := dynamicDuration d;
     cutoffDateTime := cutoffDateTime d;
     isPast := isPast d;
     lastUpdated := lastUpdated d;
     oldWhen := s;
     startWord := startWord d;
     timestamp := timestamp d;
     timeouts := timeouts d |}.

Definition setCutoff (text : string) (t : number) (d : Data) : Data :=
  {| diff := diff d;
     endWord := endWord d;
     humanPrefix := humanPrefix d;
     dynamicDuration := dynamicDuration d;
     cutoffDateTime := text;
     isPast := isPast d;
     lastUpdated := lastUpdated d;
     oldWhen := oldWhen d;
     startWord := startWord d;
     timestamp := t;
     timeouts := timeouts d |}.

(** [preset()] *)
Definition preset (tmpNow : Z) (p : Props) (d : Data) (w : World)
  : Data * World :=
  if String.eqb (when p) (oldWhen d) then (d, w)
  else
    let d1 := setOldWhen (when p) d in
    match newDate (when p) with
    | Throws =>
        (d1, consoleError (couldNotConvert (when p)) w)
    | DateObj t =>
        let w1 :=
          if isInvalidDate t
          then consoleError (couldNotConvertInvalid (when p)) w
          else w in
        let d2 := setCutoff
                    (toLocaleDateString t ++ " " ++ "at "
                     ++ toLocaleTimeString t) t d1 in
        updateStrings tmpNow p d2 w1
    end.

(** The two lifecycle hooks. *)
Definition beforeMount (tmpNow : Z) (p : Props) (d : Data) (w : World)
  : Data * World :=
  preset tmpNow p d w.

Definition updated (tmpNow : Z) (p : Props) (d : Data) (w : World)
  : Data * World :=
  preset tmpNow p d w.

End Preset.

End TimedMsg.

(** ** The life of one component *)

Module Lifecycle.

Import TimedMsg.

(** What can happen to a mounted component: Vue re-renders it and runs
    [updated()], with the props of that moment, or one of its timers
    fires. *)
Inductive Event : Type :=
| Updated (p : Props)
| TimerFired (h : nat).

Record Instance : Type := mkInstance {
  props : Props;
  state : Data;
  host : World
}.

Definition isPending (h : nat) (w : World) : bool :=
  existsb (fun t => Nat.eqb (fst t) h) (pending w).

(** A timer that fires is no longer pending. *)
Definition expire (h : nat) (w : World) : World :=
  {| pending := filter (fun t => negb (Nat.eqb (fst t) h)) (pending w);
     nextId := nextId w;
     console := console w |}.

Section Run.

Variable newDate : string -> DateCtor.
Variable toLocaleDateString : number -> string.
Variable toLocaleTimeString : number -> string.

(** The handles from [base] on are the ones given out since the component
    was mounted; while no other code runs they belong to its timers, whose
    callback is [getStringUpdater(this)]. *)
Variable base : nat.

(** Creation: [data()], then [beforeMount()]. *)
Definition mount (tmpNow : Z) (p : Props) (w : World) : Instance :=
  let r := beforeMount newDate toLocaleDateString toLocaleTimeString
             tmpNow p data w in
  {| props := p; state := fst r; host := snd r |}.

(** One event, with the clock reading [tmpNow] for its [Date.now()].  A
    handle that is not pending, or not the component's, fires nothing. *)
Definition step (tmpNow : Z) (e : Event) (i : Instance) : Instance :=
  match e with
  | Updated p' =>
      let r := updated newDate toLocaleDateString toLocaleTimeString
                 tmpNow p' (state i) (host i) in
      {| props := p'; state := fst r; host := snd r |}
  | TimerFired h =>
      if (base <=? h)%nat && isPending h (host i)
      then
        let r := getStringUpdater (props i) tmpNow (state i)
                   (expire h (host i)) in
        {| props := props i; state := fst r; host := snd r |}
      else i
  end.

Fixpoint run (es : list (Z * Event)) (i : Instance) : Instance :=
  match es with
  | [] => i
  | (tmpNow, e) :: rest => run rest (step tmpNow e i)
  end.

End Run.

End Lifecycle.

(** ** Vocabulary of the specification *)

Module Spec.

(** The unit table as the specification lists it. *)
Definition thresholds : list (string * Z) :=
  [("year", 31557600); ("month", 2629800); ("week", 604800);
   ("day", 86400); ("hour", 3600); ("minute", 60)].

(** [u] is the largest unit of the table whose threshold [t] the gap
    strictly exceeds. *)
Definition largestExceeded (gap : Z) (u : string) (t : Z) : Prop :=
  In (u, t) thresholds /\ t < gap /\
  forall u' t', In (u', t') thresholds -> t' < gap -> t' <= t.

(** The absolute gap in whole seconds between [now] and [when]. *)
Definition absGap (now when : Z) : Z := Z.abs ((when - now) / 1000).

(** ["<magnitude> <unit>[s]"] *)
Definition rendered (magnitude : Z) (u : string) : string :=
  toString (Int magnitude) ++ " " ++ u
  ++ (if magnitude =? 1 then EmptyString else "s").

Inductive Urgency : Type := expired | warning | notice | normal.

(** The urgency classification in the specification's words. *)
Definition urgencyClass (isPast : bool) (diffSeconds : number)
           (warnThreshold noticeThreshold : Z) : Urgency :=
  if isPast then expired
  else if (warnThreshold >? 0) && leb diffSeconds (Int warnThreshold)
  then warning
  else if (noticeThreshold >? 0) && leb diffSeconds (Int noticeThreshold)
  then notice
  else normal.

(** The class attribute that styles each classification. *)
Definition className (u : Urgency) : string :=
  match u with
  | expired => "timed-msg timed-msg--expired"
  | warning => "timed-msg timed-msg--warning"
  | notice => "timed-msg timed-msg--notice"
  | normal => "timed-msg"
  end.

(** The locals of the call [getDurationData(now, when, ...)] once its
    loop has ended. *)
Definition locals (now when : Z) : Duration.LoopVars :=
  let r := Duration.getDurationData now (Int when)
             EmptyString EmptyString EmptyString EmptyString in
  Duration.bestUnit (Duration.diff r) (Duration.isPast r).

(** The call reports [magnitude] of unit [u]: in its locals and in the
    text it renders. *)
Definition reports (now when : Z) (before after start end_ : string)
           (magnitude : Z) (u : string) : Prop :=
  Duration.unit (locals now when) = u /\
  Duration.humanVal (locals now when) = Int magnitude /\
  Duration.dynamicDuration
    (Duration.getDurationData now (Int when) before after start end_)
  = rendered magnitude u.

(** The call reports the largest unit of the table whose threshold the
    gap exceeds, with the floored quotient as magnitude. *)
Definition reportsLargestExceeded (now when : Z)
           (before after start end_ : string) : Prop :=
  exists u t,
    largestExceeded (absGap now when) u t /\
    0 <= absGap now when / t /\
    reports now when before after start end_ (absGap now when / t) u.

(** The absolute gap of a refresh, [NaN] when the stored cut-off is. *)
Definition gapSeconds (now : Z) (when : number) : number :=
  match when with
  | Int ts => Int (absGap now ts)
  | NaN => NaN
  end.

(** The armed timers that are left once every handle of [ts] has been
    cleared. *)
Definition survivors (ts : list nat) (armed : list (nat * number))
  : list (nat * number) :=
  filter (fun t => negb (existsb (Nat.eqb (fst t)) ts)) armed.

(** The component holds the handles of [own], which are all the timers
    the host has pending besides the [foreign] ones, and at most one. *)
Definition holdsItsTimers (foreign : list (nat * number))
           (d : TimedMsg.Data) (w : World) : Prop :=
  exists own,
    pending w = (foreign ++ own)%list /\
    map fst own = TimedMsg.timeouts d /\
    (List.length own <= 1)%nat.

(** [holdsItsTimers], with the handles kept apart: the foreign timers
    were armed before [base], the component's from [base] on. *)
Definition ownsFrom (base : nat) (foreign : list (nat * number))
           (d : TimedMsg.Data) (w : World) : Prop :=
  Forall (fun t => (fst t < base)%nat) foreign /\
  (base <= nextId w)%nat /\
  exists own,
    pending w = (foreign ++ own)%list /\
    map fst own = TimedMsg.timeouts d /\
    (List.length own <= 1)%nat /\
    Forall (fun t => (base <= fst t < nextId w)%nat) own.

(** The locals as the unit loop leaves them when it breaks at index [i],
    whose threshold is [t]. *)
Definition brokeAt (i : nat) (t gap : Z) (past : bool) : Duration.LoopVars :=
  {| Duration.next := if (0 <? Z.rem gap t) && negb past
                      then Int (Z.rem gap t) else Int t;
     Duration.humanVal := Int (gap / t);
     Duration.unit := Duration.unitName i |}.

End Spec.

(** ** A running component, for the concrete cases *)

Module Scenario.

Import TimedMsg.

(** Props with a warning threshold of one hour and a notice threshold of
    two, and the defaults otherwise. *)
Definition props (cutoff : string) : Props :=
  {| after := "Expired";
     before := "Expires";
     end_ := "ago";
     id := EmptyString;
     msgPrefix := EmptyString;
     msgSuffix := EmptyString;
     noticeAt := 7200;
     start := "in";
     warnAt := 3600;
     when := cutoff |}.

(** The data one second after the component was mounted with a cut-off
    7262 seconds after the epoch: "Expires in 2 hours", timer 4 armed. *)
Definition shown : Data :=
  {| diff := Int 7261;
     endWord := EmptyString;
     humanPrefix := "Expires";
     dynamicDuration := "2 hours";
     cutoffDateTime := "Thursday, 1 January 1970 at 2:01:02 am";
     isPast := false;
     lastUpdated := 1000;
     oldWhen := "1970-01-01T02:01:02Z";
     startWord := " in";
     timestamp := Int 7262000;
     timeouts := [4%nat] |}.

(** The same component half an hour before its cut-off. *)
Definition halfHourLeft : Data :=
  {| diff := Int 1800;
     endWord := EmptyString;
     humanPrefix := "Expires";
     dynamicDuration := "30 minutes";
     cutoffDateTime := "Thursday, 1 January 1970 at 2:01:02 am";
     isPast := false;
     lastUpdated := 5462000;
     oldWhen := "1970-01-01T02:01:02Z";
     startWord := " in";
     timestamp := Int 7262000;
     timeouts := [9%nat] |}.

(** A host with the component's timer 4 and a foreign timer 2 armed. *)
Definition world : World :=
  {| pending := [(2%nat, Int 500); (4%nat, Int 61000)];
     nextId := 5;
     console := [] |}.

(** A date library that knows one date and rejects every other string. *)
Definition newDate (s : string) : DateCtor :=
  if String.eqb s "1970-01-01T02:01:02Z"
  then DateObj (Int 7262000)
  else DateObj NaN.

Definition toLocaleDateString (t : number) : string :=
  match t with
  | Int _ => "Thursday, 1 January 1970"
  | NaN => "Invalid Date"
  end.

Definition toLocaleTimeString (t : number) : string :=
  match t with
  | Int _ => "2:01:02 am"
  | NaN => "Invalid Date"
  end.

End Scenario.

(** ** The unit loop *)

Section UnitLoop.

Import Duration Spec.

Lemma multipliers_positive :
  forall a m, nth_error multipliers a = Some m -> 0 < m.
Proof.
  intros a m H. apply nth_error_In in H.
  unfold multipliers in H. simpl in H.
  repeat (destruct H as [H | H]; [lia | ]). contradiction.
Qed.

Lemma multipliers_descending :
  forall i j ti tj,
    nth_error multipliers i = Some ti ->
    nth_error multipliers j = Some tj ->
    (i <= j)%nat -> tj <= ti.
Proof.
  intros i j ti tj Hi Hj Hle.
  assert (Hlen : (j < 6)%nat).
  { change 6%nat with (List.length multipliers).
    apply nth_error_Some. rewrite Hj. discriminate. }
  assert (Hcases : forall k, (k < 6)%nat ->
            k = 0%nat \/ k = 1%nat \/ k = 2%nat \/
            k = 3%nat \/ k = 4%nat \/ k = 5%nat) by (intros; lia).
  destruct (Hcases j Hlen) as [-> | [-> | [-> | [-> | [-> | ->]]]]];
    (assert (Hi' : (i < 6)%nat) by lia);
    destruct (Hcases i Hi') as [-> | [-> | [-> | [-> | [-> | ->]]]]];
    try lia; cbn in Hi, Hj;
    injection Hi as <-; injection Hj as <-; lia.
Qed.

Lemma multipliers_div_60 :
  forall a m, nth_error multipliers a = Some m -> Z.rem m 60 = 0.
Proof.
  intros a m H. apply nth_error_In in H.
  unfold multipliers in H. simpl in H.
  repeat (destruct H as [H | H]; [subst m; reflexivity | ]). contradiction.
Qed.

(** The loop stops at the first index whose multiplier the gap exceeds,
    and leaves the locals alone when there is none. *)
Lemma findUnit_spec :
  forall fuel a gap past v,
    (exists i t,
        (a <= i < a + fuel)%nat /\
        nth_error multipliers i = Some t /\ t < gap /\
        (forall j tj, (a <= j < i)%nat ->
                      nth_error multipliers j = Some tj -> gap <= tj) /\
        findUnit fuel a (Int gap) past v = brokeAt i t gap past)
    \/
    ((forall j tj, (a <= j < a + fuel)%nat ->
                   nth_error multipliers j = Some tj -> gap <= tj) /\
     findUnit fuel a (Int gap) past v = v).
Proof.
  induction fuel as [| fuel IH]; intros a gap past v.
  - right. split; [intros; lia | reflexivity].
  - cbn [findUnit]. unfold multiplier.
    assert (Hstep :
      forall P : nat -> Prop,
        (forall j, (S a <= j)%nat -> P j) -> P a ->
        forall j, (a <= j)%nat -> P j).
    { intros P Hs H0 j Hj. destruct (Nat.eq_dec j a) as [-> | Hne];
        [exact H0 | apply Hs; lia]. }
    destruct (nth_error multipliers a) as [m |] eqn:Ea.
    + assert (Hm := multipliers_positive _ _ Ea).
      change (gtb (Int gap) (Int m)) with (m <? gap).
      destruct (Z.ltb_spec m gap) as [Hlt | Hge].
      * left. exists a, m.
        split; [lia |]. split; [assumption |]. split; [assumption |].
        split; [intros; lia |].
        unfold brokeAt, rem, div, gtb, ltb.
        destruct (Z.eqb_spec m 0); [lia | reflexivity].
      * destruct (IH (S a) gap past v)
          as [(i & t & Hr & Hi & Ht & Hbefore & Heq) | (Hall & Heq)].
        -- left. exists i, t.
           split; [lia |]. split; [assumption |]. split; [assumption |].
           split; [| assumption].
           intros j tj [Hj1 Hj2]. revert j Hj1 tj Hj2.
           apply (Hstep (fun j => forall tj, (j < i)%nat ->
                    nth_error multipliers j = Some tj -> gap <= tj)).
           ++ intros j Hj tj Hji. apply Hbefore. lia.
           ++ intros tj _ Hnj. rewrite Ea in Hnj. injection Hnj as <-. exact Hge.
        -- right. split; [| assumption].
           intros j tj [Hj1 Hj2]. revert j Hj1 tj Hj2.
           apply (Hstep (fun j => forall tj, (j < a + S fuel)%nat ->
                    nth_error multipliers j = Some tj -> gap <= tj)).
           ++ intros j Hj tj Hji. apply Hall. lia.
           ++ intros tj _ Hnj. rewrite Ea in Hnj. injection Hnj as <-. exact Hge.
    + change (gtb (Int gap) NaN) with false. cbv iota.
      destruct (IH (S a) gap past v)
        as [(i & t & Hr & Hi & Ht & Hbefore & Heq) | (Hall & Heq)].
      * left. exists i, t.
        split; [lia |]. split; [assumption |]. split; [assumption |].
        split; [| assumption].
        intros j tj [Hj1 Hj2]. revert j Hj1 tj Hj2.
        apply (Hstep (fun j => forall tj, (j < i)%nat ->
                 nth_error multipliers j = Some tj -> gap <= tj)).
        -- intros j Hj tj Hji. apply Hbefore. lia.
        -- intros tj _ Hnj. congruence.
      * right. split; [| assumption].
        intros j tj [Hj1 Hj2]. revert j Hj1 tj Hj2.
        apply (Hstep (fun j => forall tj, (j < a + S fuel)%nat ->
                 nth_error multipliers j = Some tj -> gap <= tj)).
        -- intros j Hj tj Hji. apply Hall. lia.
        -- intros tj _ Hnj. congruence.
Qed.

Lemma table_entry :
  forall i t u,
    nth_error multipliers i = Some t -> nth_error units i = Some u ->
    In (u, t) thresholds /\ unitName i = u.
Proof.
  intros i t u Ht Hu.
  assert (Hlen : (i < 6)%nat).
  { change 6%nat with (List.length multipliers).
    apply nth_error_Some. rewrite Ht. discriminate. }
  assert (Hi : i = 0%nat \/ i = 1%nat \/ i = 2%nat \/
               i = 3%nat \/ i = 4%nat \/ i = 5%nat) by lia.
  destruct Hi as [-> | [-> | [-> | [-> | [-> | ->]]]]];
    cbn in Ht, Hu; injection Ht as <-; injection Hu as <-;
    (split; [cbn; tauto | reflexivity]).
Qed.

Lemma table_threshold :
  forall u t, In (u, t) thresholds -> exists i, nth_error multipliers i = Some t.
Proof.
  intros u t H. unfold thresholds in H. cbn in H.
  destruct H as [H | [H | [H | [H | [H | [H | []]]]]]];
    injection H as <- <-;
    [exists 0%nat | exists 1%nat | exists 2%nat
     | exists 3%nat | exists 4%nat | exists 5%nat]; reflexivity.
Qed.

Lemma table_functional :
  forall u u' t, In (u, t) thresholds -> In (u', t) thresholds -> u = u'.
Proof.
  intros u u' t H H'. unfold thresholds in H, H'. cbn in H, H'.
  repeat (destruct H as [H | H];
          [ pose proof (f_equal fst H) as Hu;
            pose proof (f_equal snd H) as Ht; cbn in Hu, Ht; subst u t;
            repeat (destruct H' as [H' | H'];
                    [ pose proof (f_equal fst H') as Hu';
                      pose proof (f_equal snd H') as Ht'; cbn in Hu', Ht';
                      first [ exfalso; lia | subst u'; reflexivity ] | ]);
            contradiction | ]).
  contradiction.
Qed.

Lemma unit_of_index :
  forall i t, nth_error multipliers i = Some t ->
              exists u, nth_error units i = Some u.
Proof.
  intros i t Ht.
  destruct (nth_error units i) as [u |] eqn:Eu; [eauto |].
  apply nth_error_None in Eu.
  assert (Hlen : (i < List.length multipliers)%nat).
  { apply nth_error_Some. rewrite Ht. discriminate. }
  cbn in Eu, Hlen. lia.
Qed.

(** A threshold the gap exceeds is the largest such one when no larger
    threshold is exceeded. *)
Lemma largestExceeded_unique :
  forall gap u t u' t',
    largestExceeded gap u t -> largestExceeded gap u' t' -> t = t'.
Proof.
  intros gap u t u' t' (Hin & Hlt & Hmax) (Hin' & Hlt' & Hmax').
  specialize (Hmax _ _ Hin' Hlt'). specialize (Hmax' _ _ Hin Hlt). lia.
Qed.

(** What the locals hold after the loop, by whether some threshold is
    exceeded. *)
Lemma bestUnit_cases :
  forall gap past,
    (exists u t,
        largestExceeded gap u t /\ 0 < t /\ Z.rem t 60 = 0 /\
        bestUnit (Int gap) past =
          {| next := if (0 <? Z.rem gap t) && negb past
                     then Int (Z.rem gap t) else Int t;
             humanVal := Int (gap / t);
             unit := u |})
    \/
    (gap <= 60 /\
     bestUnit (Int gap) past =
       {| next := Int 1; humanVal := Int gap; unit := "second" |}).
Proof.
  intros gap past. unfold bestUnit, floor.
  destruct (findUnit_spec (List.length units) 0 gap past
              {| next := Int 1; humanVal := Int gap; unit := "second" |})
    as [(i & t & Hr & Hi & Ht & Hbefore & Heq) | (Hall & Heq)].
  - left. destruct (unit_of_index _ _ Hi) as [u Hu].
    destruct (table_entry _ _ _ Hi Hu) as [Hin Hname].
    exists u, t. split; [| split; [| split]].
    + split; [assumption |]. split; [assumption |].
      intros u' t' Hin' Hlt'.
      destruct (table_threshold _ _ Hin') as [j Hj].
      destruct (Nat.le_gt_cases i j) as [Hij | Hji].
      * exact (multipliers_descending _ _ _ _ Hi Hj Hij).
      * assert (gap <= t') by (apply (Hbefore j); [lia | assumption]). lia.
    + exact (multipliers_positive _ _ Hi).
    + exact (multipliers_div_60 _ _ Hi).
    + rewrite Heq. unfold brokeAt. cbn [next humanVal unit].
      rewrite Hname. reflexivity.
  - right. split.
    + apply (Hall 5%nat 60); [cbn; lia | reflexivity].
    + rewrite Heq. reflexivity.
Qed.

(** The call on an integer cut-off, in terms of the absolute gap. *)
Lemma getDurationData_int :
  forall now when before after start end_,
    let past := (when - now) / 1000 <? 0 in
    let gap := absGap now when in
    let v := bestUnit (Int gap) past in
    getDurationData now (Int when) before after start end_ =
      {| dynamicDuration :=
           if gap =? 0 then "now"
           else toString (humanVal v) ++ " " ++ unit v
                ++ (if strict_neb (humanVal v) (Int 1)
                    then "s" else EmptyString);
         diff := Int gap;
         endWord := if past then " " ++ end_ else EmptyString;
         isPast := past;
         prefixTxt := if past then after else before;
         startWord := if gap =? 0 then EmptyString
                      else if past then EmptyString else " " ++ start;
         timeout := mul (tickSeconds (Int gap) v) (Int 1000) |}.
Proof.
  intros now when before after start end_.
  unfold getDurationData, signedDiff, floor, absGap.
  change (div (sub (Int when) (Int now)) (Int 1000))
    with (Int ((when - now) / 1000)).
  change (ltb (Int ((when - now) / 1000)) (Int 0))
    with ((when - now) / 1000 <? 0).
  destruct (Z.ltb_spec ((when - now) / 1000) 0) as [Hneg | Hpos]; cbv zeta.
  - replace (mul (Int ((when - now) / 1000)) (Int (-1)))
      with (Int (Z.abs ((when - now) / 1000)))
      by (cbn [mul]; f_equal; lia).
    reflexivity.
  - rewrite (Z.abs_eq _ Hpos). reflexivity.
Qed.

Lemma locals_int :
  forall now when,
    locals now when =
      bestUnit (Int (absGap now when)) ((when - now) / 1000 <? 0).
Proof.
  intros now when. unfold locals.
  rewrite getDurationData_int. reflexivity.
Qed.

Lemma past_gap_positive :
  forall now when, ((when - now) / 1000 <? 0) = true -> 0 < absGap now when.
Proof.
  intros now when H. apply Z.ltb_lt in H. unfold absGap. lia.
Qed.

(** The text rendered for magnitude [m] of unit [u]. *)
Lemma rendered_text :
  forall m u,
    toString (Int m) ++ " " ++ u
    ++ (if strict_neb (Int m) (Int 1) then "s" else EmptyString)
    = rendered m u.
Proof.
  intros m u. unfold rendered, strict_neb, strict_eqb.
  destruct (m =? 1); reflexivity.
Qed.

(** A gap that exceeds some threshold is reported in the largest such
    unit. *)
Lemma reports_exceeded :
  forall now when before after start end_ u t,
    largestExceeded (absGap now when) u t ->
    reports now when before after start end_ (absGap now when / t) u.
Proof.
  intros now when before after start end_ u t Hl.
  destruct (bestUnit_cases (absGap now when) ((when - now) / 1000 <? 0))
    as [(u' & t' & Hl' & Hpos & _ & Hv) | (Hle & _)].
  - assert (t' = t) by (eapply largestExceeded_unique; eassumption).
    subst t'.
    assert (u' = u)
      by (destruct Hl as (Hin & _), Hl' as (Hin' & _);
          exact (table_functional _ _ _ Hin' Hin)).
    subst u'.
    unfold reports. rewrite locals_int, getDurationData_int. cbv zeta.
    rewrite Hv. cbn [unit humanVal dynamicDuration].
    repeat split.
    destruct Hl as (Hin & Hlt & _).
    destruct (Z.eqb_spec (absGap now when) 0) as [H0 | _]; [lia |].
    apply rendered_text.
  - destruct Hl as (Hin & Hlt & _).
    destruct (table_threshold _ _ Hin) as [i Hi].
    assert (60 <= t).
    { apply (multipliers_descending i 5%nat t 60 Hi eq_refl).
      assert ((i < List.length multipliers)%nat)
        by (apply nth_error_Some; rewrite Hi; discriminate).
      cbn in *. lia. }
    lia.
Qed.

(** A non-zero gap that exceeds no threshold is reported in seconds. *)
Lemma reports_seconds :
  forall now when before after start end_,
    0 < absGap now when <= 60 ->
    reports now when before after start end_ (absGap now when) "second".
Proof.
  intros now when before after start end_ [Hpos Hle].
  destruct (bestUnit_cases (absGap now when) ((when - now) / 1000 <? 0))
    as [(u' & t' & Hl' & _ & _ & _) | (_ & Hv)].
  - destruct Hl' as (Hin & Hlt & _).
    unfold thresholds in Hin. cbn in Hin.
    repeat (destruct Hin as [Hin | Hin]; [injection Hin as <- <-; lia | ]).
    contradiction.
  - unfold reports. rewrite locals_int, getDurationData_int. cbv zeta.
    rewrite Hv. cbn [unit humanVal dynamicDuration].
    repeat split.
    destruct (Z.eqb_spec (absGap now when) 0) as [H0 | _]; [lia |].
    apply rendered_text.
Qed.

Lemma exceeded_exists :
  forall gap, 60 < gap -> exists u t, largestExceeded gap u t.
Proof.
  intros gap Hgap.
  destruct (bestUnit_cases gap false)
    as [(u & t & Hl & _) | (Hle & _)]; [eauto | lia].
Qed.

End UnitLoop.

(** ** Properties of getDurationData *)

Section DurationProperties.

Import Duration Spec.

Lemma largestExceeded_hour :
  forall gap, 3600 < gap <= 86400 -> largestExceeded gap "hour" 3600.
Proof.
  intros gap [Hlo Hhi]. split; [cbn; tauto |]. split; [assumption |].
  intros u' t' Hin Hlt. unfold thresholds in Hin. cbn in Hin.
  repeat (destruct Hin as [Hin | Hin]; [injection Hin as <- <-; lia | ]).
  contradiction.
Qed.

Lemma largestExceeded_minute :
  forall gap, 60 < gap <= 3600 -> largestExceeded gap "minute" 60.
Proof.
  intros gap [Hlo Hhi]. split; [cbn; tauto |]. split; [assumption |].
  intros u' t' Hin Hlt. unfold thresholds in Hin. cbn in Hin.
  repeat (destruct Hin as [Hin | Hin]; [injection Hin as <- <-; lia | ]).
  contradiction.
Qed.

(** C1, as the specification states it, fails for a gap of 45 seconds:
    the call does not report 0 of the unit minute.  The loop visits the
    minute threshold too and 45 does not exceed it, so the locals keep
    their initial unit, second. *)
Lemma C1_counterexample_45_seconds :
  ~ (0 < absGap 0 45000 <= 3600 ->
     reports 0 45000 "Expires" "Expired" "in" "ago"
             (absGap 0 45000 / 60) "minute").
Proof.
  intro H. destruct H as (Hu & _).
  - cbn. lia.
  - vm_compute in Hu. discriminate Hu.
Qed.

(** C1 (amended): when the absolute gap is positive and does not exceed
    the hour threshold, a gap above 60 seconds is reported in the unit
    minute with magnitude floor(gap / 60), and a gap of at most 60
    seconds is reported in the unit second with the gap itself as
    magnitude; a 45-second gap renders as "45 seconds". *)
Theorem C1_sub_hour_gap_unit :
  forall now when before after start end_,
    (60 < absGap now when <= 3600 ->
     reports now when before after start end_
             (absGap now when / 60) "minute") /\
    (0 < absGap now when <= 60 ->
     reports now when before after start end_
             (absGap now when) "second") /\
    dynamicDuration (getDurationData 0 (Int 45000) before after start end_)
    = "45 seconds".
Proof.
  intros now when before after start end_. split; [| split].
  - intro H. apply reports_exceeded. apply largestExceeded_minute. exact H.
  - intro H. apply reports_seconds. exact H.
  - reflexivity.
Qed.

Lemma C1_sub_hour_gap_unit_witness :
  reports 0 90000 "Expires" "Expired" "in" "ago" 1 "minute" /\
  reports 0 45000 "Expires" "Expired" "in" "ago" 45 "second".
Proof.
  split.
  - apply (proj1 (C1_sub_hour_gap_unit
                    0 90000 "Expires" "Expired" "in" "ago")).
    vm_compute. split; [reflexivity | discriminate].
  - apply (proj1 (proj2 (C1_sub_hour_gap_unit
                           0 45000 "Expires" "Expired" "in" "ago"))).
    vm_compute. split; [reflexivity | discriminate].
Defined.

(** C2: when the gap exceeds some threshold and [t] is the largest one
    it exceeds, the delay in seconds is [gap mod t] if the cut-off is in
    the future and that remainder is positive, and [t] otherwise; a
    delay that is a multiple of 60 is replaced by 1; the returned
    timeout is that delay in milliseconds and is at least 1000. *)
Theorem C2_next_tick_delay :
  forall now when before after start end_ u t,
    largestExceeded (absGap now when) u t ->
    let r := getDurationData now (Int when) before after start end_ in
    let remainder := absGap now when mod t in
    let delay := if negb (isPast r) && (0 <? remainder)
                 then remainder else t in
    let seconds := if delay mod 60 =? 0 then 1 else delay in
    timeout r = Int (seconds * 1000) /\ 1000 <= seconds * 1000.
Proof.
  intros now when before after start end_ u t Hl r remainder delay seconds.
  assert (Hgap : 0 <= absGap now when) by (unfold absGap; lia).
  destruct (bestUnit_cases (absGap now when) ((when - now) / 1000 <? 0))
    as [(u' & t' & Hl' & Hpos & _ & Hv) | (Hle & _)].
  - assert (t' = t) by (eapply largestExceeded_unique; eassumption).
    subst t'.
    destruct Hl as (_ & Hlt & _).
    assert (Hrem : Z.rem (absGap now when) t = remainder)
      by (apply Z.rem_mod_nonneg; lia).
    assert (Hrange : 0 <= remainder < t)
      by (apply Z.mod_pos_bound; lia).
    assert (Hdelay : 0 < delay).
    { unfold delay.
      destruct (negb (isPast r)); cbn [andb]; [| lia].
      destruct (Z.ltb_spec 0 remainder); lia. }
    assert (Hr : timeout r = Int (seconds * 1000)).
    { unfold r at 1. rewrite getDurationData_int. cbv zeta.
      cbn [timeout]. rewrite Hv. unfold tickSeconds. cbn [next].
      rewrite Hrem.
      assert (Hnext :
        (if (0 <? remainder) && negb ((when - now) / 1000 <? 0)
         then Int remainder else Int t) = Int delay).
      { unfold delay, r. rewrite getDurationData_int. cbv zeta.
        cbn [isPast]. rewrite andb_comm.
        destruct (negb ((when - now) / 1000 <? 0) && (0 <? remainder));
          reflexivity. }
      rewrite Hnext.
      change (strict_neb (Int (absGap now when)) (Int 0))
        with (negb (absGap now when =? 0)).
      destruct (Z.eqb_spec (absGap now when) 0) as [H0 | _]; [lia |].
      change (strict_eqb (rem (Int delay) (Int 60)) (Int 0))
        with (Z.rem delay 60 =? 0).
      rewrite Z.rem_mod_nonneg by lia.
      unfold seconds. cbn [negb andb].
      destruct (delay mod 60 =? 0); reflexivity. }
    split; [exact Hr |].
    unfold seconds. destruct (delay mod 60 =? 0); lia.
  - exfalso. destruct Hl as (Hin & Hlt & _).
    unfold thresholds in Hin. cbn in Hin.
    repeat (destruct Hin as [Hin | Hin]; [injection Hin as <- <-; lia | ]).
    contradiction.
Qed.

Lemma C2_next_tick_delay_witness :
  timeout (getDurationData 0 (Int 3661000) "Expires" "Expired" "in" "ago")
  = Int 61000.
Proof.
  apply (C2_next_tick_delay 0 3661000 "Expires" "Expired" "in" "ago"
                            "hour" 3600).
  apply largestExceeded_hour. vm_compute. split; [reflexivity | discriminate].
Defined.

(** C5: when now equals the cut-off the rendered text is "now" and the
    leading and the trailing connector are both empty, whatever the
    phrase words. *)
Theorem C5_now_at_cutoff :
  forall now before after start end_,
    let r := getDurationData now (Int now) before after start end_ in
    dynamicDuration r = "now" /\
    startWord r = EmptyString /\
    endWord r = EmptyString.
Proof.
  intros now before after start end_ r. unfold r.
  rewrite getDurationData_int. cbv zeta.
  unfold absGap. rewrite Z.sub_diag. cbn. repeat split.
Qed.

(** C6, as the specification states it, fails for a gap of 45 seconds:
    no threshold of the table is exceeded, and the call reports the
    unit second, which the table does not hold. *)
Lemma C6_counterexample_45_seconds :
  ~ reportsLargestExceeded 0 45000 "Expires" "Expired" "in" "ago".
Proof.
  intros (u & t & (Hin & Hlt & _) & _).
  change (absGap 0 45000) with 45 in Hlt.
  unfold thresholds in Hin. cbn in Hin.
  repeat (destruct Hin as [Hin | Hin]; [injection Hin as <- <-; lia | ]).
  contradiction.
Qed.

(** C6 (amended): for every gap that strictly exceeds 60 seconds, the
    chosen unit is the largest unit whose threshold (year 31557600 s,
    month 2629800 s, week 604800 s, day 86400 s, hour 3600 s, minute
    60 s) the absolute gap strictly exceeds and the magnitude is the
    non-negative integer floor(absGap / threshold); a non-zero gap of at
    most 60 seconds is reported in the unit second with the gap as
    magnitude; in both cases the unit name gets a trailing "s" exactly
    when the magnitude is not 1; a gap of 3661 seconds yields unit hour,
    magnitude 1 and the text "1 hour". *)
Theorem C6_largest_exceeded_unit :
  forall now when before after start end_,
    (60 < absGap now when ->
     reportsLargestExceeded now when before after start end_) /\
    (0 < absGap now when <= 60 ->
     reports now when before after start end_
             (absGap now when) "second") /\
    (forall m u, rendered m u =
                 toString (Int m) ++ " " ++ u
                 ++ (if m =? 1 then EmptyString else "s")) /\
    reports 0 3661000 before after start end_ 1 "hour" /\
    dynamicDuration
      (getDurationData 0 (Int 3661000) before after start end_) = "1 hour".
Proof.
  intros now when before after start end_.
  split; [| split; [| split; [| split]]].
  - intro H. destruct (exceeded_exists _ H) as (u & t & Hl).
    exists u, t. split; [exact Hl |]. split.
    + assert (0 <= absGap now when) by (unfold absGap; lia).
      destruct (bestUnit_cases (absGap now when) false)
        as [(u' & t' & Hl' & Hpos & _) | (Hle & _)]; [| lia].
      assert (t' = t) by (eapply largestExceeded_unique; eassumption).
      subst t'. apply Z.div_pos; lia.
    + apply reports_exceeded. exact Hl.
  - intro H. apply reports_seconds. exact H.
  - reflexivity.
  - apply (reports_exceeded 0 3661000 before after start end_ "hour" 3600).
    apply largestExceeded_hour. cbn. lia.
  - reflexivity.
Qed.

Lemma C6_largest_exceeded_unit_witness :
  reportsLargestExceeded 0 90000000 "Expires" "Expired" "in" "ago" /\
  reports 0 45000 "Expires" "Expired" "in" "ago" 45 "second".
Proof.
  split.
  - apply (proj1 (C6_largest_exceeded_unit
                    0 90000000 "Expires" "Expired" "in" "ago")).
    vm_compute. reflexivity.
  - apply (proj1 (proj2 (C6_largest_exceeded_unit
                           0 45000 "Expires" "Expired" "in" "ago"))).
    vm_compute. split; [reflexivity | discriminate].
Defined.

(** C7, as the specification states it, fails for a gap of zero: the
    symmetric call is then the same call, and it is not past. *)
Lemma C7_counterexample_zero_gap :
  ~ (isPast (getDurationData 7 (Int (7 + 0))
                             "Expires" "Expired" "in" "ago") = false /\
     isPast (getDurationData (7 + 0) (Int 7)
                             "Expires" "Expired" "in" "ago") = true).
Proof.
  intros [_ H]. vm_compute in H. discriminate H.
Qed.

(** C7 (amended): for every gap >= 0 (in milliseconds) the call
    getDurationData(now, now+gap) is not past, and the symmetric call
    getDurationData(now+gap, now) is past exactly when the gap is
    positive; at a gap of zero neither call is past. *)
Theorem C7_direction :
  forall now gap before after start end_,
    0 <= gap ->
    isPast (getDurationData now (Int (now + gap))
                            before after start end_) = false /\
    isPast (getDurationData (now + gap) (Int now)
                            before after start end_) = (0 <? gap).
Proof.
  intros now gap before after start end_ Hgap.
  rewrite !getDurationData_int. cbv zeta. cbn [isPast].
  replace (now + gap - now) with gap by lia.
  replace (now - (now + gap)) with (- gap) by lia.
  split.
  - apply Z.ltb_ge. apply Z.div_pos; lia.
  - destruct (Z.ltb_spec 0 gap) as [Hpos | Hzero].
    + apply Z.ltb_lt. apply Z.div_lt_upper_bound; lia.
    + assert (gap = 0) by lia. subst gap. reflexivity.
Qed.

Lemma C7_direction_witness :
  isPast (getDurationData 1000 (Int (1000 + 2500))
                          "Expires" "Expired" "in" "ago") = false /\
  isPast (getDurationData (1000 + 2500) (Int 1000)
                          "Expires" "Expired" "in" "ago") = (0 <? 2500).
Proof.
  apply (C7_direction 1000 2500 "Expires" "Expired" "in" "ago"). lia.
Defined.

(** C10: every unit threshold is divisible by 60, and whenever the
    cut-off is in the past the returned timeout is exactly 1000
    milliseconds, whatever the gap and the unit chosen. *)
Theorem C10_past_timeout :
  forall now when before after start end_,
    let r := getDurationData now (Int when) before after start end_ in
    Forall (fun m => m mod 60 = 0) multipliers /\
    (isPast r = true -> timeout r = Int 1000).
Proof.
  intros now when before after start end_ r. split.
  - unfold multipliers. repeat constructor.
  - unfold r. rewrite getDurationData_int. cbv zeta.
    cbn [isPast timeout]. intro Hpast. rewrite Hpast.
    assert (Hgap := past_gap_positive _ _ Hpast).
    unfold tickSeconds.
    change (strict_neb (Int (absGap now when)) (Int 0))
      with (negb (absGap now when =? 0)).
    destruct (Z.eqb_spec (absGap now when) 0) as [H0 | _]; [lia |].
    destruct (bestUnit_cases (absGap now when) true)
      as [(u & t & _ & Hpos & Hdiv & Hv) | (_ & Hv)];
      rewrite Hv; cbn [next negb andb].
    + rewrite andb_false_r.
      change (strict_eqb (rem (Int t) (Int 60)) (Int 0))
        with (Z.rem t 60 =? 0).
      rewrite Hdiv. reflexivity.
    + reflexivity.
Qed.

Lemma C10_past_timeout_witness :
  timeout (getDurationData 90000000 (Int 0) "Expires" "Expired" "in" "ago")
  = Int 1000.
Proof.
  apply (proj2 (C10_past_timeout
                  90000000 0 "Expires" "Expired" "in" "ago")).
  reflexivity.
Defined.

End DurationProperties.

(** ** Properties of the component *)

Section ComponentProperties.

Import TimedMsg Spec.

Lemma clearAll_spec :
  forall ts w,
    pending (clearAll ts w) = survivors ts (pending w) /\
    nextId (clearAll ts w) = nextId w /\
    console (clearAll ts w) = console w.
Proof.
  induction ts as [| to rest IH]; intro w; cbn [clearAll].
  - unfold survivors. cbn [existsb negb].
    split; [| split]; try reflexivity.
    induction (pending w) as [| x l IHl]; [reflexivity |].
    cbn [filter]. f_equal. exact IHl.
  - destruct (IH (clearTimeout to w)) as (Hp & Hn & Hc).
    rewrite Hp, Hn, Hc. split; [| split]; try reflexivity.
    unfold survivors, clearTimeout. cbn [pending].
    induction (pending w) as [| x l IHl]; [reflexivity |].
    cbn [filter existsb].
    destruct (Nat.eqb (fst x) to); cbn [negb orb filter].
    + exact IHl.
    + destruct (negb (existsb (Nat.eqb (fst x)) rest));
        [f_equal |]; exact IHl.
Qed.

Lemma survivors_cleared :
  forall ts armed,
    Forall (fun h => ~ In h (map fst (survivors ts armed))) ts.
Proof.
  intros ts armed. apply Forall_forall. intros h Hin Hmem.
  apply in_map_iff in Hmem. destruct Hmem as (x & Hx & Hf).
  unfold survivors in Hf. apply filter_In in Hf. destruct Hf as [_ Hf].
  apply negb_true_iff in Hf.
  assert (Hex : existsb (Nat.eqb (fst x)) ts = true).
  { apply existsb_exists. exists h. split; [exact Hin |].
    apply Nat.eqb_eq. exact Hx. }
  congruence.
Qed.

Lemma diff_is_gap :
  forall now when before after start end_,
    Duration.diff
      (Duration.getDurationData now when before after start end_)
    = gapSeconds now when.
Proof.
  intros now [ts |] before after start end_.
  - rewrite getDurationData_int. reflexivity.
  - reflexivity.
Qed.

(** C4: a refresh first clears every timer the component holds; then,
    if the absolute gap in seconds is below 28800, it arms exactly one
    new timer, for the computed delay, and holds its handle; otherwise
    (the gap is 28800 or more, or is not a number) it arms none. *)
Theorem C4_refresh_arms_one_timer :
  forall tmpNow p d w,
    let r := Duration.getDurationData tmpNow (timestamp d)
               (before p) (after p) (start p) (end_ p) in
    let gap := gapSeconds tmpNow (timestamp d) in
    let d' := fst (updateStrings tmpNow p d w) in
    let w' := snd (updateStrings tmpNow p d w) in
    let kept := survivors (timeouts d) (pending w) in
    diff d' = gap /\
    Forall (fun h => ~ In h (map fst kept)) (timeouts d) /\
    ((ltb gap (Int 28800) = true /\
      timeouts d' = [nextId w] /\
      pending w' = (kept ++ [(nextId w, Duration.timeout r)])%list /\
      nextId w' = S (nextId w))
     \/
     (ltb gap (Int 28800) = false /\
      timeouts d' = [] /\
      pending w' = kept /\
      nextId w' = nextId w)).
Proof.
  intros tmpNow p d w r gap d' w' kept.
  destruct (clearAll_spec (timeouts d) w) as (Hp & Hn & _).
  assert (Hdiff : Duration.diff r = gap) by apply diff_is_gap.
  split; [exact Hdiff |].
  split; [apply survivors_cleared |].
  unfold d', w', updateStrings. fold r. rewrite Hdiff.
  destruct (ltb gap (Int 28800)); [left | right];
    cbn [fst snd setTimeout timeouts pending nextId];
    rewrite ?Hp, ?Hn; repeat split; reflexivity.
Qed.

(** C8: the class attribute is the one of the classification: expired
    if past; else warning if warnAt > 0 and diff <= warnAt; else notice
    if noticeAt > 0 and diff <= noticeAt; else normal.  Warning wins
    over notice when both apply (warnAt 3600, noticeAt 7200, diff 1800
    is a warning), and a non-positive threshold disables its class. *)
Theorem C8_urgency_class :
  forall p d,
    wrapClass p d =
      className (urgencyClass (isPast d) (diff d) (warnAt p) (noticeAt p))
    /\
    (forall x, isPast d = false -> diff d = Int x ->
               0 < warnAt p -> x <= warnAt p ->
               wrapClass p d = className warning) /\
    (warnAt p <= 0 -> wrapClass p d <> className warning) /\
    (noticeAt p <= 0 -> wrapClass p d <> className notice) /\
    wrapClass (Scenario.props "1970-01-01T02:01:02Z") Scenario.halfHourLeft
    = "timed-msg timed-msg--warning".
Proof.
  intros p d.
  assert (Hmain : wrapClass p d =
            className (urgencyClass (isPast d) (diff d)
                                    (warnAt p) (noticeAt p))).
  { unfold wrapClass, urgencyClass. rewrite !Z.gtb_ltb.
    destruct (isPast d); [reflexivity |].
    destruct ((0 <? warnAt p) && leb (diff d) (Int (warnAt p)));
      [reflexivity |].
    destruct ((0 <? noticeAt p) && leb (diff d) (Int (noticeAt p)));
      reflexivity. }
  split; [exact Hmain |]. split; [| split; [| split]].
  - intros x Hpast Hd Hw Hx. rewrite Hmain. unfold urgencyClass.
    rewrite Hpast, Hd, Z.gtb_ltb. cbn [leb].
    destruct (Z.ltb_spec 0 (warnAt p)); [| lia].
    destruct (Z.leb_spec x (warnAt p)); [reflexivity | lia].
  - intros Hw. rewrite Hmain. unfold urgencyClass. rewrite !Z.gtb_ltb.
    destruct (Z.ltb_spec 0 (warnAt p)); [lia |]. cbn [andb].
    destruct (isPast d); [discriminate |].
    destruct ((0 <? noticeAt p) && leb (diff d) (Int (noticeAt p)));
      discriminate.
  - intros Hn. rewrite Hmain. unfold urgencyClass. rewrite !Z.gtb_ltb.
    destruct (Z.ltb_spec 0 (noticeAt p)); [lia |]. cbn [andb].
    destruct (isPast d); [discriminate |].
    destruct ((0 <? warnAt p) && leb (diff d) (Int (warnAt p)));
      discriminate.
  - reflexivity.
Qed.

Lemma C8_urgency_class_witness :
  wrapClass (Scenario.props "1970-01-01T02:01:02Z") Scenario.halfHourLeft
  = className warning.
Proof.
  apply (proj1 (proj2 (C8_urgency_class
                         (Scenario.props "1970-01-01T02:01:02Z")
                         Scenario.halfHourLeft))) with (x := 1800).
  - reflexivity.
  - reflexivity.
  - simpl. lia.
  - simpl. lia.
Defined.

(** C9: preset with a cut-off string equal to the stored one changes
    nothing: the data (stored epoch, displayed fields, held timer
    handles) and the host (armed timers, handle counter, console) are
    returned as they were. *)
Theorem C9_same_cutoff_noop :
  forall newDate toLocaleDateString toLocaleTimeString tmpNow p d w,
    when p = oldWhen d ->
    preset newDate toLocaleDateString toLocaleTimeString tmpNow p d w
    = (d, w).
Proof.
  intros newDate fdate ftime tmpNow p d w H. unfold preset.
  rewrite H, String.eqb_refl. reflexivity.
Qed.

Lemma C9_same_cutoff_noop_witness :
  preset Scenario.newDate Scenario.toLocaleDateString
         Scenario.toLocaleTimeString 2000
         (Scenario.props "1970-01-01T02:01:02Z")
         Scenario.shown Scenario.world
  = (Scenario.shown, Scenario.world).
Proof.
  apply (C9_same_cutoff_noop
           Scenario.newDate Scenario.toLocaleDateString
           Scenario.toLocaleTimeString 2000
           (Scenario.props "1970-01-01T02:01:02Z")
           Scenario.shown Scenario.world).
  reflexivity.
Defined.

(** The catch branch of preset logs and returns: only [oldWhen] has
    changed by then. *)
Lemma preset_catch_returns :
  forall newDate fdate ftime tmpNow p d w,
    when p <> oldWhen d ->
    newDate (when p) = Throws ->
    let d' := fst (preset newDate fdate ftime tmpNow p d w) in
    let w' := snd (preset newDate fdate ftime tmpNow p d w) in
    d' = setOldWhen (when p) d /\
    pending w' = pending w /\
    exists msg, console w' = (console w ++ [msg])%list.
Proof.
  intros newDate fdate ftime tmpNow p d w Hne Hthrow. unfold preset.
  destruct (String.eqb_spec (when p) (oldWhen d)) as [He | _];
    [contradiction |].
  rewrite Hthrow. cbn. eauto.
Qed.

(** C3 (the code at the failing input): when the new cut-off string
    parses to an invalid date, preset logs the error and then goes on:
    the stored epoch becomes NaN, the formatted date and the displayed
    duration are overwritten ("NaN seconds"), every timer the component
    held is cleared and none is armed. *)
Theorem C3_invalid_date_overwrites_state :
  forall newDate fdate ftime tmpNow p d w,
    when p <> oldWhen d ->
    newDate (when p) = DateObj NaN ->
    let d' := fst (preset newDate fdate ftime tmpNow p d w) in
    let w' := snd (preset newDate fdate ftime tmpNow p d w) in
    timestamp d' = NaN /\
    diff d' = NaN /\
    dynamicDuration d' = "NaN seconds" /\
    cutoffDateTime d' = fdate NaN ++ " at " ++ ftime NaN /\
    lastUpdated d' = tmpNow /\
    timeouts d' = [] /\
    pending w' = survivors (timeouts d) (pending w) /\
    console w' = (console w ++ [couldNotConvertInvalid (when p)])%list.
Proof.
  intros newDate fdate ftime tmpNow p d w Hne Hinv. unfold preset.
  destruct (String.eqb_spec (when p) (oldWhen d)) as [He | _];
    [contradiction |].
  rewrite Hinv. cbn [isInvalidDate].
  destruct (clearAll_spec (timeouts d)
              (consoleError (couldNotConvertInvalid (when p)) w))
    as (Hp & _ & Hc).
  unfold updateStrings.
  cbn [setCutoff setOldWhen timestamp timeouts].
  cbn [Duration.getDurationData Duration.signedDiff sub div floor ltb
       fst snd timestamp diff dynamicDuration cutoffDateTime lastUpdated
       timeouts Duration.diff Duration.dynamicDuration].
  cbn [pending console]. rewrite Hp, Hc.
  repeat split.
Qed.

Lemma C3_invalid_date_overwrites_state_witness :
  let d' := fst (preset Scenario.newDate Scenario.toLocaleDateString
                        Scenario.toLocaleTimeString 2000
                        (Scenario.props "tomorrow")
                        Scenario.shown Scenario.world) in
  timestamp Scenario.shown = Int 7262000 /\
  dynamicDuration Scenario.shown = "2 hours" /\
  timeouts Scenario.shown = [4%nat] /\
  timestamp d' = NaN /\
  dynamicDuration d' = "NaN seconds" /\
  timeouts d' = [].
Proof.
  intro d'.
  destruct (C3_invalid_date_overwrites_state
              Scenario.newDate Scenario.toLocaleDateString
              Scenario.toLocaleTimeString 2000
              (Scenario.props "tomorrow")
              Scenario.shown Scenario.world)
    as (Ht & _ & Hd & _ & _ & Hto & _).
  - simpl. discriminate.
  - reflexivity.
  - repeat split; assumption.
Defined.

End ComponentProperties.

(** ** Further properties of getDurationData *)

Section TickProperties.

Import Duration Spec.

Lemma gap_nonneg : forall now when, 0 <= absGap now when.
Proof. intros now when. unfold absGap. lia. Qed.

Lemma past_iff_earlier :
  forall now when, ((when - now) / 1000 <? 0) = (when <? now).
Proof.
  intros now when.
  destruct (Z.ltb_spec when now) as [Hlt | Hge].
  - apply Z.ltb_lt. apply Z.div_lt_upper_bound; lia.
  - apply Z.ltb_ge. apply Z.div_pos; lia.
Qed.

Lemma future_gap :
  forall now when, now <= when -> absGap now when = (when - now) / 1000.
Proof.
  intros now when H. unfold absGap. apply Z.abs_eq. apply Z.div_pos; lia.
Qed.

(** Every threshold of the table is one of the six multipliers. *)
Lemma thresholds_values :
  forall u t,
    In (u, t) thresholds ->
    (u = "year" /\ t = 31557600) \/ (u = "month" /\ t = 2629800) \/
    (u = "week" /\ t = 604800) \/ (u = "day" /\ t = 86400) \/
    (u = "hour" /\ t = 3600) \/ (u = "minute" /\ t = 60).
Proof.
  intros u t H. unfold thresholds in H. cbn in H.
  destruct H as [H | [H | [H | [H | [H | [H | []]]]]]];
    injection H as <- <-; tauto.
Qed.

(** The delay is one second, unless the cut-off is ahead, the gap is not
    a whole number of the chosen unit and the remainder is not a whole
    number of minutes: then it is that remainder. *)
Lemma timeout_cases :
  forall now when before after start end_,
    let r := getDurationData now (Int when) before after start end_ in
    let gap := absGap now when in
    timeout r = Int 1000 \/
    (now <= when /\
     exists u t,
       largestExceeded gap u t /\
       0 < gap mod t < t /\
       (gap mod t) mod 60 <> 0 /\
       timeout r = Int (gap mod t * 1000)).
Proof.
  intros now when before after start end_ r gap. unfold r.
  rewrite getDurationData_int. cbv zeta. cbn [timeout]. fold gap.
  rewrite past_iff_earlier.
  assert (Hgap : 0 <= gap) by apply gap_nonneg.
  unfold tickSeconds.
  destruct (bestUnit_cases gap (when <? now))
    as [(u & t & Hl & Hpos & Hdiv & Hv) | (_ & Hv)]; rewrite Hv; cbn [next].
  - assert (Hlt : t < gap) by (destruct Hl as (_ & H & _); exact H).
    rewrite (Z.rem_mod_nonneg gap t) by lia.
    assert (Hrange : 0 <= gap mod t < t) by (apply Z.mod_pos_bound; lia).
    change (strict_neb (Int gap) (Int 0)) with (negb (gap =? 0)).
    destruct (Z.eqb_spec gap 0) as [H0 | _]; [lia |]. cbn [negb andb].
    destruct (Z.ltb_spec 0 (gap mod t)) as [Hrem | Hrem];
      destruct (Z.ltb_spec when now) as [Hpast | Hfut]; cbn [negb andb];
      try (change (strict_eqb (rem (Int t) (Int 60)) (Int 0))
             with (Z.rem t 60 =? 0);
           rewrite Hdiv; left; reflexivity).
    change (strict_eqb (rem (Int (gap mod t)) (Int 60)) (Int 0))
      with (Z.rem (gap mod t) 60 =? 0).
    rewrite (Z.rem_mod_nonneg (gap mod t) 60) by lia.
    destruct (Z.eqb_spec ((gap mod t) mod 60) 0) as [H60 | H60].
    + left. reflexivity.
    + right. split; [exact Hfut |]. exists u, t.
      split; [exact Hl |]. split; [lia |]. split; [exact H60 |].
      reflexivity.
  - left. rewrite andb_false_r. reflexivity.
Qed.

(** X1: a cut-off less than one second ahead counts as reached: the text
    is "now", both connectors are empty, the call is not past, the gap is
    0 and the next refresh is due in one second. *)
Theorem sub_second_ahead_is_now :
  forall now when before after start end_,
    0 <= when - now < 1000 ->
    let r := getDurationData now (Int when) before after start end_ in
    dynamicDuration r = "now" /\
    startWord r = EmptyString /\
    endWord r = EmptyString /\
    isPast r = false /\
    diff r = Int 0 /\
    timeout r = Int 1000.
Proof.
  intros now when before after start end_ H r. unfold r.
  rewrite getDurationData_int. cbv zeta.
  unfold absGap. rewrite (Z.div_small (when - now) 1000 H).
  cbn. repeat split.
Qed.

Lemma sub_second_ahead_is_now_witness :
  dynamicDuration
    (getDurationData 5000 (Int 5999) "Expires" "Expired" "in" "ago") = "now".
Proof.
  apply (sub_second_ahead_is_now 5000 5999 "Expires" "Expired" "in" "ago").
  lia.
Defined.

(** X2: the call is past exactly when the cut-off is earlier than now, be
    it by one millisecond.  A past call carries the after word and the
    trailing connector only, a call at least one second ahead the before
    word and the leading connector only, and in both the gap is at least
    one second. *)
Theorem direction_and_connectors :
  forall now when before after start end_,
    let r := getDurationData now (Int when) before after start end_ in
    isPast r = (when <? now) /\
    (when < now ->
     prefixTxt r = after /\ endWord r = " " ++ end_ /\
     startWord r = EmptyString /\
     exists g, diff r = Int g /\ 1 <= g) /\
    (now + 1000 <= when ->
     prefixTxt r = before /\ startWord r = " " ++ start /\
     endWord r = EmptyString /\
     exists g, diff r = Int g /\ 1 <= g).
Proof.
  intros now when before after start end_ r. unfold r.
  rewrite getDurationData_int. cbv zeta.
  cbn [isPast prefixTxt endWord startWord diff].
  rewrite past_iff_earlier.
  split; [reflexivity |]. split.
  - intro Hlt.
    assert (Hneg : (when - now) / 1000 < 0)
      by (apply Z.div_lt_upper_bound; lia).
    assert (Hg : 1 <= absGap now when) by (unfold absGap; lia).
    destruct (Z.ltb_spec when now); [| lia].
    destruct (Z.eqb_spec (absGap now when) 0); [lia |].
    repeat split. exists (absGap now when). split; [reflexivity | exact Hg].
  - intro Hfut.
    assert (Hpos : 1 <= (when - now) / 1000)
      by (apply Z.div_le_lower_bound; lia).
    assert (Hg : 1 <= absGap now when) by (unfold absGap; lia).
    destruct (Z.ltb_spec when now); [lia |].
    destruct (Z.eqb_spec (absGap now when) 0); [lia |].
    repeat split. exists (absGap now when). split; [reflexivity | exact Hg].
Qed.

Lemma direction_and_connectors_witness :
  endWord (getDurationData 1000 (Int 999) "Expires" "Expired" "in" "ago")
  = " ago" /\
  startWord (getDurationData 0 (Int 1000) "Expires" "Expired" "in" "ago")
  = " in".
Proof.
  split.
  - apply (proj1 (proj2 (direction_and_connectors
                           1000 999 "Expires" "Expired" "in" "ago"))).
    lia.
  - apply (proj2 (proj2 (direction_and_connectors
                           0 1000 "Expires" "Expired" "in" "ago"))).
    lia.
Defined.

(** X3: a non-zero gap is never shown with magnitude 0: the magnitude is
    at least 1, and at most 60 seconds, 60 minutes, 24 hours, 7 days,
    4 weeks or 12 months; only years are unbounded. *)
Theorem magnitude_bounds :
  forall now when before after start end_,
    absGap now when <> 0 ->
    exists m u,
      reports now when before after start end_ m u /\
      1 <= m /\
      ((u = "second" /\ m <= 60) \/ (u = "minute" /\ m <= 60) \/
       (u = "hour" /\ m <= 24) \/ (u = "day" /\ m <= 7) \/
       (u = "week" /\ m <= 4) \/ (u = "month" /\ m <= 12) \/
       u = "year").
Proof.
  intros now when before after start end_ Hnz.
  assert (Hgap := gap_nonneg now when).
  destruct (Z.le_gt_cases (absGap now when) 60) as [Hle | Hgt].
  - exists (absGap now when), "second".
    split; [apply reports_seconds; lia |]. split; [lia |]. left. split;
      [reflexivity | exact Hle].
  - destruct (exceeded_exists _ Hgt) as (u & t & Hl).
    exists (absGap now when / t), u.
    split; [apply reports_exceeded; exact Hl |].
    destruct Hl as (Hin & Hlt & Hmax).
    assert (Hnext : forall u' t', In (u', t') thresholds -> t < t' ->
                                  absGap now when <= t').
    { intros u' t' Hin' Ht'.
      destruct (Z.le_gt_cases (absGap now when) t') as [H | H];
        [exact H |].
      specialize (Hmax u' t' Hin' H). lia. }
    destruct (thresholds_values _ _ Hin)
      as [[-> ->] | [[-> ->] | [[-> ->] | [[-> ->] | [[-> ->] | [-> ->]]]]]].
    + split; [apply Z.div_le_lower_bound; lia | tauto].
    + assert (absGap now when <= 31557600)
        by (apply (Hnext "year"); [cbn; tauto | lia]).
      split; [apply Z.div_le_lower_bound; lia |].
      do 5 right. left. split; [reflexivity |].
      apply Z.div_le_upper_bound; lia.
    + assert (absGap now when <= 2629800)
        by (apply (Hnext "month"); [cbn; tauto | lia]).
      split; [apply Z.div_le_lower_bound; lia |].
      do 4 right. left. split; [reflexivity |].
      apply Z.lt_succ_r. apply Z.div_lt_upper_bound; lia.
    + assert (absGap now when <= 604800)
        by (apply (Hnext "week"); [cbn; tauto | lia]).
      split; [apply Z.div_le_lower_bound; lia |].
      do 3 right. left. split; [reflexivity |].
      apply Z.div_le_upper_bound; lia.
    + assert (absGap now when <= 86400)
        by (apply (Hnext "day"); [cbn; tauto | lia]).
      split; [apply Z.div_le_lower_bound; lia |].
      do 2 right. left. split; [reflexivity |].
      apply Z.div_le_upper_bound; lia.
    + assert (absGap now when <= 3600)
        by (apply (Hnext "hour"); [cbn; tauto | lia]).
      split; [apply Z.div_le_lower_bound; lia |].
      right. left. split; [reflexivity |].
      apply Z.div_le_upper_bound; lia.
Qed.

Lemma magnitude_bounds_witness :
  exists m u,
    reports 0 86400000 "Expires" "Expired" "in" "ago" m u /\
    1 <= m /\
    ((u = "second" /\ m <= 60) \/ (u = "minute" /\ m <= 60) \/
     (u = "hour" /\ m <= 24) \/ (u = "day" /\ m <= 7) \/
     (u = "week" /\ m <= 4) \/ (u = "month" /\ m <= 12) \/
     u = "year").
Proof.
  apply (magnitude_bounds 0 86400000 "Expires" "Expired" "in" "ago").
  vm_compute. discriminate.
Defined.

(** X4: the delay is always a whole number of milliseconds and at least
    1000, also for a cut-off that is not a number; when the cut-off is at
    least one second ahead, the refresh is due no later than the cut-off
    itself. *)
Theorem refresh_due_by_cutoff :
  forall now (when : number) before after start end_,
    exists ms,
      timeout (getDurationData now when before after start end_) = Int ms /\
      1000 <= ms /\
      forall ts, when = Int ts -> now + 1000 <= ts -> now + ms <= ts.
Proof.
  intros now [ts |] before after start end_.
  - assert (Hgap := gap_nonneg now ts).
    destruct (timeout_cases now ts before after start end_)
      as [H1 | (Hfut & u & t & Hl & Hrem & _ & Hms)].
    + exists 1000. split; [exact H1 |]. split; [lia |].
      intros ts' Heq Hahead. injection Heq as <-. lia.
    + exists (absGap now ts mod t * 1000).
      split; [exact Hms |]. split; [lia |].
      intros ts' Heq Hahead. injection Heq as <-.
      destruct Hl as (_ & Hlt & _).
      assert (absGap now ts mod t <= absGap now ts)
        by (apply Z.mod_le; lia).
      rewrite (future_gap _ _ Hfut) in *.
      assert (1000 * ((ts - now) / 1000) <= ts - now)
        by (apply Z.mul_div_le; lia).
      lia.
  - exists 1000. split; [reflexivity |]. split; [lia |].
    intros ts Heq. discriminate Heq.
Qed.

Lemma refresh_due_by_cutoff_witness :
  exists ms,
    timeout (getDurationData 0 (Int 3661000) "Expires" "Expired" "in" "ago")
    = Int ms /\
    1000 <= ms /\ 0 + ms <= 3661000.
Proof.
  destruct (refresh_due_by_cutoff 0 (Int 3661000)
                                  "Expires" "Expired" "in" "ago")
    as (ms & Hms & Hlo & Hdue).
  exists ms. split; [exact Hms |]. split; [exact Hlo |].
  apply Hdue; [reflexivity | lia].
Defined.

(** The gap [s] whole seconds later, while the cut-off is still ahead. *)
Lemma gap_later :
  forall now when s,
    0 <= s -> s <= absGap now when -> now <= when ->
    now + 1000 * s <= when /\
    absGap (now + 1000 * s) when = absGap now when - s.
Proof.
  intros now when s Hs Hle Hfut.
  rewrite (future_gap _ _ Hfut) in Hle.
  assert (1000 * ((when - now) / 1000) <= when - now)
    by (apply Z.mul_div_le; lia).
  assert (Hlater : now + 1000 * s <= when) by lia.
  split; [exact Hlater |].
  rewrite (future_gap _ _ Hlater), (future_gap _ _ Hfut).
  replace (when - (now + 1000 * s)) with (when - now + (- s) * 1000) by lia.
  rewrite Z.div_add by lia. lia.
Qed.

(** X5: the label does not go stale before the refresh: any whole number
    of seconds short of the returned delay later, the call renders the
    same text. *)
Theorem label_stable_until_refresh :
  forall now when before after start end_ ms s,
    timeout (getDurationData now (Int when) before after start end_)
    = Int ms ->
    0 <= s -> 1000 * s < ms ->
    dynamicDuration
      (getDurationData (now + 1000 * s) (Int when) before after start end_)
    = dynamicDuration
        (getDurationData now (Int when) before after start end_).
Proof.
  intros now when before after start end_ ms s Hms Hs Hlt.
  destruct (timeout_cases now when before after start end_)
    as [H1 | (Hfut & u & t & Hl & Hrem & _ & Hrm)].
  - rewrite H1 in Hms. injection Hms as <-.
    assert (s = 0) by lia. subst s.
    rewrite Z.mul_0_r, Z.add_0_r. reflexivity.
  - rewrite Hrm in Hms. injection Hms as <-.
    set (gap := absGap now when) in *.
    assert (Hl0 := Hl). destruct Hl0 as (Hin & Hgt & Hmax).
    assert (Hdm : gap = t * (gap / t) + gap mod t)
      by (apply Z.div_mod; lia).
    assert (Hq : 1 <= gap / t) by (apply Z.div_le_lower_bound; lia).
    assert (Hsle : s <= gap) by lia.
    destruct (gap_later now when s Hs Hsle Hfut) as [_ Hgap'].
    fold gap in Hgap'.
    assert (Hl' : largestExceeded (absGap (now + 1000 * s) when) u t).
    { rewrite Hgap'. split; [exact Hin |]. split; [nia |].
      intros u' t' Hin' Hlt'. apply (Hmax u' t' Hin'). lia. }
    assert (Hsame : absGap (now + 1000 * s) when / t = gap / t).
    { rewrite Hgap'. symmetry. apply Z.div_unique with (gap mod t - s).
      - left. lia.
      - lia. }
    destruct (reports_exceeded _ _ before after start end_ _ _ Hl')
      as (_ & _ & Htext').
    destruct (reports_exceeded _ _ before after start end_ _ _ Hl)
      as (_ & _ & Htext).
    rewrite Htext', Htext, Hsame. reflexivity.
Qed.

Lemma label_stable_until_refresh_witness :
  dynamicDuration
    (getDurationData (0 + 1000 * 60) (Int 3661000)
                     "Expires" "Expired" "in" "ago")
  = dynamicDuration
      (getDurationData 0 (Int 3661000) "Expires" "Expired" "in" "ago").
Proof.
  apply (label_stable_until_refresh
           0 3661000 "Expires" "Expired" "in" "ago" 61000 60).
  - reflexivity.
  - lia.
  - lia.
Defined.

(** X6: a delay of more than one second ends exactly when the gap
    reaches a whole number of the displayed unit, with the cut-off still
    ahead. *)
Theorem long_delay_ends_on_unit_boundary :
  forall now when before after start end_ ms,
    timeout (getDurationData now (Int when) before after start end_)
    = Int ms ->
    1000 < ms ->
    exists u t,
      largestExceeded (absGap now when) u t /\
      now + ms <= when /\
      absGap (now + ms) when = t * (absGap now when / t).
Proof.
  intros now when before after start end_ ms Hms Hlong.
  destruct (timeout_cases now when before after start end_)
    as [H1 | (Hfut & u & t & Hl & Hrem & _ & Hrm)].
  - rewrite H1 in Hms. injection Hms as <-. lia.
  - rewrite Hrm in Hms. injection Hms as <-.
    exists u, t. split; [exact Hl |].
    set (gap := absGap now when) in *.
    destruct Hl as (_ & Hgt & _).
    assert (Hdm : gap = t * (gap / t) + gap mod t)
      by (apply Z.div_mod; lia).
    assert (Hq : 1 <= gap / t) by (apply Z.div_le_lower_bound; lia).
    assert (Hle : gap mod t <= gap) by nia.
    destruct (gap_later now when (gap mod t) ltac:(lia) Hle Hfut)
      as [Hahead Hgap'].
    fold gap in Hgap'.
    replace (gap mod t * 1000) with (1000 * (gap mod t)) by lia.
    split; [exact Hahead |]. rewrite Hgap'. lia.
Qed.

Lemma long_delay_ends_on_unit_boundary_witness :
  exists u t,
    largestExceeded (absGap 0 3661000) u t /\
    0 + 61000 <= 3661000 /\
    absGap (0 + 61000) 3661000 = t * (absGap 0 3661000 / t).
Proof.
  apply (long_delay_ends_on_unit_boundary
           0 3661000 "Expires" "Expired" "in" "ago" 61000).
  - reflexivity.
  - lia.
Defined.

End TickProperties.

(** ** Further properties of the component *)

Section RefreshProperties.

Import TimedMsg Spec.

(** What a refresh does to the timers, and what it leaves alone. *)
Lemma updateStrings_cases :
  forall tmpNow p d w,
    let r := Duration.getDurationData tmpNow (timestamp d)
               (before p) (after p) (start p) (end_ p) in
    let d' := fst (updateStrings tmpNow p d w) in
    let w' := snd (updateStrings tmpNow p d w) in
    let kept := survivors (timeouts d) (pending w) in
    console w' = console w /\
    ((ltb (Duration.diff r) (Int 28800) = true /\
      timeouts d' = [nextId w] /\
      pending w' = (kept ++ [(nextId w, Duration.timeout r)])%list /\
      nextId w' = S (nextId w))
     \/
     (ltb (Duration.diff r) (Int 28800) = false /\
      timeouts d' = [] /\
      pending w' = kept /\
      nextId w' = nextId w)).
Proof.
  intros tmpNow p d w r d' w' kept.
  destruct (clearAll_spec (timeouts d) w) as (Hp & Hn & Hc).
  unfold d', w', updateStrings. fold r.
  destruct (ltb (Duration.diff r) (Int 28800)).
  - cbn [fst snd setTimeout timeouts pending nextId console].
    rewrite Hp, Hn, Hc. split; [reflexivity |]. left. repeat split.
  - cbn [fst snd timeouts]. rewrite Hp, Hn, Hc.
    split; [reflexivity |]. right. repeat split.
Qed.

(** X7: a refresh never cancels a timer whose handle the component does
    not hold, writes nothing to the console, and keeps the stored cut-off
    string, epoch and formatted date. *)
Theorem refresh_spares_foreign_timers :
  forall tmpNow p d w,
    let d' := fst (updateStrings tmpNow p d w) in
    let w' := snd (updateStrings tmpNow p d w) in
    (forall t, In t (pending w) -> ~ In (fst t) (timeouts d) ->
               In t (pending w')) /\
    console w' = console w /\
    oldWhen d' = oldWhen d /\
    timestamp d' = timestamp d /\
    cutoffDateTime d' = cutoffDateTime d.
Proof.
  intros tmpNow p d w d' w'.
  destruct (updateStrings_cases tmpNow p d w)
    as (Hc & [(_ & _ & Hp & _) | (_ & _ & Hp & _)]);
    fold w' in Hc, Hp; (split; [| split; [exact Hc | repeat split]]);
    intros t Hin Hfree; rewrite Hp; try apply in_or_app; try left;
    unfold survivors; apply filter_In; (split; [exact Hin |]);
    apply negb_true_iff;
    destruct (existsb (Nat.eqb (fst t)) (timeouts d)) eqn:E;
    try reflexivity;
    apply existsb_exists in E; destruct E as (h & Hh & Heq);
    apply Nat.eqb_eq in Heq; rewrite Heq in Hfree; contradiction.
Qed.

Lemma refresh_spares_foreign_timers_witness :
  In (2%nat, Int 500)
     (pending (snd (updateStrings 2000 (Scenario.props "1970-01-01T02:01:02Z")
                                  Scenario.shown Scenario.world))).
Proof.
  apply (proj1 (refresh_spares_foreign_timers
                  2000 (Scenario.props "1970-01-01T02:01:02Z")
                  Scenario.shown Scenario.world)).
  - simpl. left. reflexivity.
  - simpl. intros [H | H]; [discriminate H | exact H].
Defined.

(** X8: a timer armed by a refresh is due in at least one second and in
    less than one hour. *)
Theorem armed_delay_within_the_hour :
  forall tmpNow p d w h,
    let d' := fst (updateStrings tmpNow p d w) in
    let w' := snd (updateStrings tmpNow p d w) in
    In h (timeouts d') ->
    exists ms,
      pending w' =
        (survivors (timeouts d) (pending w) ++ [(h, Int ms)])%list /\
      1000 <= ms < 3600000.
Proof.
  intros tmpNow p d w h d' w' Hheld.
  destruct (updateStrings_cases tmpNow p d w)
    as (_ & [(Hlt & Hto & Hp & _) | (_ & Hto & _)]);
    fold d' in Hto; rewrite Hto in Hheld; [| destruct Hheld].
  destruct Hheld as [<- | []]. fold w' in Hp.
  rewrite diff_is_gap in Hlt.
  destruct (timestamp d) as [ts |] eqn:Ets; [| discriminate Hlt].
  cbn [gapSeconds ltb] in Hlt. apply Z.ltb_lt in Hlt.
  destruct (timeout_cases tmpNow ts (before p) (after p) (start p) (end_ p))
    as [H1 | (_ & u & t & (Hin & Hgt & _) & Hrem & _ & Hms)].
  - exists 1000. rewrite Hp, H1. split; [reflexivity | lia].
  - exists (absGap tmpNow ts mod t * 1000). rewrite Hp, Hms.
    split; [reflexivity |].
    destruct (thresholds_values _ _ Hin)
      as [[_ ->] | [[_ ->] | [[_ ->] | [[_ ->] | [[_ ->] | [_ ->]]]]]];
      lia.
Qed.

Lemma armed_delay_within_the_hour_witness :
  exists ms,
    pending (snd (updateStrings 2000 (Scenario.props "1970-01-01T02:01:02Z")
                                Scenario.shown Scenario.world)) =
      (survivors (timeouts Scenario.shown) (pending Scenario.world)
       ++ [(5%nat, Int ms)])%list /\
    1000 <= ms < 3600000.
Proof.
  apply (armed_delay_within_the_hour
           2000 (Scenario.props "1970-01-01T02:01:02Z")
           Scenario.shown Scenario.world 5%nat).
  simpl. left. reflexivity.
Defined.

(** After preset the stored cut-off string is the prop's, on every path. *)
Lemma preset_stores_when :
  forall newDate fdate ftime tmpNow p d w,
    oldWhen (fst (preset newDate fdate ftime tmpNow p d w)) = when p.
Proof.
  intros newDate fdate ftime tmpNow p d w. unfold preset.
  destruct (String.eqb_spec (when p) (oldWhen d)) as [He | Hne].
  - symmetry. exact He.
  - destruct (newDate (when p)) as [| t]; reflexivity.
Qed.

(** X9: preset settles at once: run again with the same props, at any
    later time, it changes nothing.  So the re-render that preset itself
    causes does not start another, and a cut-off that does not parse is
    reported once. *)
Theorem preset_again_changes_nothing :
  forall newDate fdate ftime tmpNow tmpLater p d w,
    let r := preset newDate fdate ftime tmpNow p d w in
    preset newDate fdate ftime tmpLater p (fst r) (snd r) = r.
Proof.
  intros newDate fdate ftime tmpNow tmpLater p d w r.
  assert (H : oldWhen (fst r) = when p) by apply preset_stores_when.
  unfold preset at 1. rewrite H, String.eqb_refl.
  destruct r; reflexivity.
Qed.

(** X10: preset with a new cut-off string that parses logs nothing,
    stores the string and its epoch, formats the date, and shows what
    getDurationData computes for that epoch. *)
Theorem preset_installs_valid_cutoff :
  forall newDate fdate ftime tmpNow p d w ts,
    when p <> oldWhen d ->
    newDate (when p) = DateObj (Int ts) ->
    let d' := fst (preset newDate fdate ftime tmpNow p d w) in
    let w' := snd (preset newDate fdate ftime tmpNow p d w) in
    let r := Duration.getDurationData tmpNow (Int ts)
               (before p) (after p) (start p) (end_ p) in
    console w' = console w /\
    oldWhen d' = when p /\
    timestamp d' = Int ts /\
    cutoffDateTime d' = fdate (Int ts) ++ " at " ++ ftime (Int ts) /\
    diff d' = Int (absGap tmpNow ts) /\
    isPast d' = (ts <? tmpNow) /\
    dynamicDuration d' = Duration.dynamicDuration r /\
    humanPrefix d' = Duration.prefixTxt r /\
    startWord d' = Duration.startWord r /\
    endWord d' = Duration.endWord r /\
    lastUpdated d' = tmpNow.
Proof.
  intros newDate fdate ftime tmpNow p d w ts Hne Hok d' w' r.
  unfold d', w', preset.
  destruct (String.eqb_spec (when p) (oldWhen d)) as [He | _];
    [contradiction |].
  rewrite Hok. cbn [isInvalidDate].
  destruct (updateStrings_cases tmpNow p
              (setCutoff (fdate (Int ts) ++ " " ++ "at " ++ ftime (Int ts))
                         (Int ts) (setOldWhen (when p) d)) w)
    as (Hc & _).
  split; [exact Hc |].
  unfold updateStrings.
  cbn [fst setCutoff setOldWhen oldWhen timestamp cutoffDateTime diff
       isPast dynamicDuration humanPrefix startWord endWord lastUpdated].
  fold r. unfold r at 1 2. rewrite getDurationData_int. cbv zeta.
  cbn [Duration.diff Duration.isPast]. rewrite past_iff_earlier.
  repeat split.
Qed.

Lemma preset_installs_valid_cutoff_witness :
  dynamicDuration
    (fst (preset Scenario.newDate Scenario.toLocaleDateString
                 Scenario.toLocaleTimeString 1000
                 (Scenario.props "1970-01-01T02:01:02Z")
                 data Scenario.world))
  = "2 hours".
Proof.
  apply (preset_installs_valid_cutoff
           Scenario.newDate Scenario.toLocaleDateString
           Scenario.toLocaleTimeString 1000
           (Scenario.props "1970-01-01T02:01:02Z")
           data Scenario.world 7262000).
  - simpl. discriminate.
  - reflexivity.
Defined.

End RefreshProperties.

(** ** The timer loop over the life of a component *)

Section LifecycleProperties.

Import TimedMsg Spec Lifecycle.

Lemma filter_keeps_all :
  forall (A : Type) (f : A -> bool) (l : list A),
    Forall (fun x => f x = true) l -> filter f l = l.
Proof.
  intros A f l H. induction H as [| x l Hx _ IH]; cbn [filter].
  - reflexivity.
  - rewrite Hx, IH. reflexivity.
Qed.

Lemma filter_drops_all :
  forall (A : Type) (f : A -> bool) (l : list A),
    Forall (fun x => f x = false) l -> filter f l = [].
Proof.
  intros A f l H. induction H as [| x l Hx _ IH]; cbn [filter].
  - reflexivity.
  - rewrite Hx. exact IH.
Qed.

(** A refresh restores the ownership invariant from a state in which the
    component may hold handles of timers that are gone. *)
Lemma refresh_owns :
  forall base foreign tmpNow p d w own,
    Forall (fun t => (fst t < base)%nat) foreign ->
    (base <= nextId w)%nat ->
    pending w = (foreign ++ own)%list ->
    Forall (fun t => In (fst t) (timeouts d)) own ->
    Forall (fun h => (base <= h)%nat) (timeouts d) ->
    ownsFrom base foreign
             (fst (updateStrings tmpNow p d w))
             (snd (updateStrings tmpNow p d w)).
Proof.
  intros base foreign tmpNow p d w own Hfor Hbase Hpend Hown Hheld.
  assert (Hkept : survivors (timeouts d) (pending w) = foreign).
  { unfold survivors. rewrite Hpend, filter_app.
    rewrite filter_keeps_all, filter_drops_all.
    - apply app_nil_r.
    - apply Forall_forall. intros t Ht.
      apply negb_false_iff. apply existsb_exists.
      exists (fst t). split; [| apply Nat.eqb_refl].
      exact (proj1 (Forall_forall _ _) Hown t Ht).
    - apply Forall_forall. intros t Ht.
      apply negb_true_iff.
      destruct (existsb (Nat.eqb (fst t)) (timeouts d)) eqn:E;
        [| reflexivity].
      apply existsb_exists in E. destruct E as (h & Hh & Heq).
      apply Nat.eqb_eq in Heq.
      assert ((fst t < base)%nat)
        by exact (proj1 (Forall_forall _ _) Hfor t Ht).
      assert ((base <= h)%nat)
        by exact (proj1 (Forall_forall _ _) Hheld h Hh).
      lia. }
  destruct (updateStrings_cases tmpNow p d w)
    as (_ & [(_ & Hto & Hp & Hn) | (_ & Hto & Hp & Hn)]);
    rewrite Hkept in Hp;
    (split; [exact Hfor |]); (split; [rewrite Hn; lia |]).
  - exists [(nextId w,
             Duration.timeout
               (Duration.getDurationData tmpNow (timestamp d)
                  (before p) (after p) (start p) (end_ p)))].
    split; [exact Hp |]. split; [rewrite Hto; reflexivity |].
    split; [cbn; lia |].
    constructor; [rewrite Hn; cbn; lia | constructor].
  - exists []. split; [rewrite Hp; symmetry; apply app_nil_r |].
    split; [rewrite Hto; reflexivity |].
    split; [cbn; lia | constructor].
Qed.

Lemma owned_handles :
  forall base (d : Data) (w : World) (own : list (nat * number)),
    map fst own = timeouts d ->
    Forall (fun t => (base <= fst t < nextId w)%nat) own ->
    Forall (fun t => In (fst t) (timeouts d)) own /\
    Forall (fun h => (base <= h)%nat) (timeouts d).
Proof.
  intros base d w own Hmap Hrange. split.
  - apply Forall_forall. intros t Ht. rewrite <- Hmap.
    apply in_map. exact Ht.
  - rewrite <- Hmap. apply Forall_forall. intros h Hh.
    apply in_map_iff in Hh. destruct Hh as (t & <- & Ht).
    assert ((base <= fst t < nextId w)%nat)
      by exact (proj1 (Forall_forall _ _) Hrange t Ht).
    lia.
Qed.

Lemma preset_owns :
  forall newDate fdate ftime base foreign tmpNow p d w,
    ownsFrom base foreign d w ->
    ownsFrom base foreign
             (fst (preset newDate fdate ftime tmpNow p d w))
             (snd (preset newDate fdate ftime tmpNow p d w)).
Proof.
  intros newDate fdate ftime base foreign tmpNow p d w Hinv.
  assert (Hinv0 := Hinv).
  destruct Hinv0 as (Hfor & Hbase & own & Hpend & Hmap & Hlen & Hrange).
  unfold preset.
  destruct (String.eqb (when p) (oldWhen d)); [exact Hinv |].
  destruct (owned_handles base d w own Hmap Hrange)
    as [Hown Hheld].
  destruct (newDate (when p)) as [| t].
  - exact Hinv.
  - apply refresh_owns with (own := own); try assumption.
    + destruct (isInvalidDate t); exact Hbase.
    + destruct (isInvalidDate t); exact Hpend.
Qed.

Lemma step_owns :
  forall newDate fdate ftime base foreign tmpNow e i,
    ownsFrom base foreign (state i) (host i) ->
    ownsFrom base foreign
             (state (step newDate fdate ftime base tmpNow e i))
             (host (step newDate fdate ftime base tmpNow e i)).
Proof.
  intros newDate fdate ftime base foreign tmpNow e i Hinv.
  destruct e as [p' | h]; cbn [step].
  - cbn [state host]. unfold updated. apply preset_owns. exact Hinv.
  - destruct ((base <=? h)%nat && isPending h (host i)) eqn:Hen;
      [| exact Hinv].
    apply andb_true_iff in Hen. destruct Hen as [Hh _].
    apply Nat.leb_le in Hh.
    destruct Hinv as (Hfor & Hbase & own & Hpend & Hmap & Hlen & Hrange).
    destruct (owned_handles base (state i) (host i) own Hmap Hrange)
      as [Hown Hheld].
    cbn [state host]. unfold getStringUpdater.
    apply refresh_owns
      with (own := filter (fun t => negb (Nat.eqb (fst t) h)) own).
    + exact Hfor.
    + exact Hbase.
    + cbn [expire pending]. rewrite Hpend, filter_app. f_equal.
      apply filter_keeps_all. apply Forall_forall. intros t Ht.
      apply negb_true_iff. apply Nat.eqb_neq.
      assert ((fst t < base)%nat)
        by exact (proj1 (Forall_forall _ _) Hfor t Ht).
      lia.
    + apply Forall_forall. intros t Ht. apply filter_In in Ht.
      exact (proj1 (Forall_forall _ _) Hown t (proj1 Ht)).
    + exact Hheld.
Qed.

Lemma run_owns :
  forall newDate fdate ftime base foreign es i,
    ownsFrom base foreign (state i) (host i) ->
    ownsFrom base foreign
             (state (run newDate fdate ftime base es i))
             (host (run newDate fdate ftime base es i)).
Proof.
  intros newDate fdate ftime base foreign es.
  induction es as [| [tmpNow e] rest IH]; intros i Hinv; cbn [run].
  - exact Hinv.
  - apply IH. apply step_owns. exact Hinv.
Qed.

(** X11: from mounting on, through any sequence of re-renders, prop
    changes and timer firings at any clock readings, the component has
    at most one timer pending, holds exactly its handle, and the timers
    that were pending in the host before it was mounted are untouched. *)
Theorem component_holds_its_timers :
  forall newDate fdate ftime tmpNow p w0 es,
    Forall (fun t => (fst t < nextId w0)%nat) (pending w0) ->
    let i := run newDate fdate ftime (nextId w0) es
                 (mount newDate fdate ftime tmpNow p w0) in
    holdsItsTimers (pending w0) (state i) (host i).
Proof.
  intros newDate fdate ftime tmpNow p w0 es Hfresh i.
  assert (Hinv : ownsFrom (nextId w0) (pending w0) (state i) (host i)).
  { unfold i. apply run_owns. unfold mount, beforeMount. cbn [state host].
    apply preset_owns.
    split; [exact Hfresh |]. split; [lia |].
    exists []. split; [symmetry; apply app_nil_r |].
    split; [reflexivity |]. split; [cbn; lia | constructor]. }
  destruct Hinv as (_ & _ & own & Hpend & Hmap & Hlen & _).
  exists own. split; [exact Hpend |]. split; [exact Hmap | exact Hlen].
Qed.

Lemma component_holds_its_timers_witness :
  holdsItsTimers
    (pending Scenario.world)
    (state (run Scenario.newDate Scenario.toLocaleDateString
                Scenario.toLocaleTimeString (nextId Scenario.world)
                [(62000, TimerFired 5%nat);
                 (63000, Updated (Scenario.props "tomorrow"))]
                (mount Scenario.newDate Scenario.toLocaleDateString
                       Scenario.toLocaleTimeString 1000
                       (Scenario.props "1970-01-01T02:01:02Z")
                       Scenario.world)))
    (host (run Scenario.newDate Scenario.toLocaleDateString
               Scenario.toLocaleTimeString (nextId Scenario.world)
               [(62000, TimerFired 5%nat);
                (63000, Updated (Scenario.props "tomorrow"))]
               (mount Scenario.newDate Scenario.toLocaleDateString
                      Scenario.toLocaleTimeString 1000
                      (Scenario.props "1970-01-01T02:01:02Z")
                      Scenario.world))).
Proof.
  apply (component_holds_its_timers
           Scenario.newDate Scenario.toLocaleDateString
           Scenario.toLocaleTimeString 1000
           (Scenario.props "1970-01-01T02:01:02Z") Scenario.world
           [(62000, TimerFired 5%nat);
            (63000, Updated (Scenario.props "tomorrow"))]).
  simpl. repeat constructor.
Defined.

End LifecycleProperties.

(** ** What a refresh shows, and when it is the last one *)

Section DisplayProperties.

Import TimedMsg Spec Lifecycle.

(** X12: the class after a refresh, by the clock and the stored epoch:
    expired as soon as the cut-off is earlier than now; with a positive
    warnAt, warning from warnAt seconds before the cut-off up to and
    including the second of the cut-off itself; and no urgency class at
    all when the stored epoch is not a number. *)
Theorem class_after_refresh :
  forall tmpNow p d w,
    let d' := fst (updateStrings tmpNow p d w) in
    (forall ts, timestamp d = Int ts ->
       wrapClass p d' =
         className (urgencyClass (ts <? tmpNow) (Int (absGap tmpNow ts))
                                 (warnAt p) (noticeAt p)) /\
       (ts < tmpNow -> wrapClass p d' = className expired) /\
       (tmpNow <= ts -> 0 < warnAt p -> absGap tmpNow ts <= warnAt p ->
        wrapClass p d' = className warning)) /\
    (timestamp d = NaN -> wrapClass p d' = className normal).
Proof.
  intros tmpNow p d w d'.
  assert (Hclass : wrapClass p d' =
            className (urgencyClass (isPast d') (diff d')
                                    (warnAt p) (noticeAt p))).
  { unfold wrapClass, urgencyClass. rewrite !Z.gtb_ltb.
    destruct (isPast d'); [reflexivity |].
    destruct ((0 <? warnAt p) && leb (diff d') (Int (warnAt p)));
      [reflexivity |].
    destruct ((0 <? noticeAt p) && leb (diff d') (Int (noticeAt p)));
      reflexivity. }
  split.
  - intros ts Hts.
    assert (Hd : diff d' = Int (absGap tmpNow ts)).
    { unfold d', updateStrings. cbn [fst diff]. rewrite Hts.
      rewrite getDurationData_int. reflexivity. }
    assert (Hp : isPast d' = (ts <? tmpNow)).
    { unfold d', updateStrings. cbn [fst isPast]. rewrite Hts.
      rewrite getDurationData_int. cbv zeta. cbn [Duration.isPast].
      apply past_iff_earlier. }
    rewrite Hclass, Hd, Hp. split; [reflexivity |]. split.
    + intro Hlt. unfold urgencyClass.
      destruct (Z.ltb_spec ts tmpNow); [reflexivity | lia].
    + intros Hge Hw Hgap. unfold urgencyClass. rewrite Z.gtb_ltb.
      cbn [leb].
      destruct (Z.ltb_spec ts tmpNow); [lia |].
      destruct (Z.ltb_spec 0 (warnAt p)); [| lia].
      destruct (Z.leb_spec (absGap tmpNow ts) (warnAt p));
        [reflexivity | lia].
  - intro Hnan. rewrite Hclass.
    unfold d', updateStrings. cbn [fst diff isPast]. rewrite Hnan.
    unfold urgencyClass. cbn. rewrite !andb_false_r. reflexivity.
Qed.

Lemma class_after_refresh_witness :
  wrapClass (Scenario.props "1970-01-01T02:01:02Z")
            (fst (updateStrings 7262000
                                (Scenario.props "1970-01-01T02:01:02Z")
                                Scenario.shown Scenario.world))
  = className warning.
Proof.
  apply (proj1 (class_after_refresh
                  7262000 (Scenario.props "1970-01-01T02:01:02Z")
                  Scenario.shown Scenario.world) 7262000).
  - reflexivity.
  - lia.
  - simpl. lia.
  - vm_compute. discriminate.
Defined.

(** X13: a component mounted eight hours or more from its cut-off is
    never refreshed again: it arms no timer, and neither timer events
    nor re-renders with the same cut-off string change its data or the
    host, whatever the clock reads by then. *)
Theorem far_cutoff_is_never_refreshed :
  forall newDate fdate ftime tmpNow p w0 ts es,
    Forall (fun t => (fst t < nextId w0)%nat) (pending w0) ->
    when p <> EmptyString ->
    newDate (when p) = DateObj (Int ts) ->
    28800 <= absGap tmpNow ts ->
    Forall (fun e => match snd e with
                     | Updated p' => when p' = when p
                     | TimerFired _ => True
                     end) es ->
    let i0 := mount newDate fdate ftime tmpNow p w0 in
    let i := run newDate fdate ftime (nextId w0) es i0 in
    state i = state i0 /\
    host i = host i0 /\
    pending (host i) = pending w0 /\
    dynamicDuration (state i) =
      Duration.dynamicDuration
        (Duration.getDurationData tmpNow (Int ts)
           (before p) (after p) (start p) (end_ p)).
Proof.
  intros newDate fdate ftime tmpNow p w0 ts es Hfresh Hne Hok Hfar Hes i0 i.
  assert (Hmount :
    oldWhen (state i0) = when p /\
    pending (host i0) = pending w0 /\
    dynamicDuration (state i0) =
      Duration.dynamicDuration
        (Duration.getDurationData tmpNow (Int ts)
           (before p) (after p) (start p) (end_ p))).
  { unfold i0, mount, beforeMount. cbn [state host].
    split; [apply preset_stores_when |].
    unfold preset. cbn [data oldWhen].
    destruct (String.eqb_spec (when p) EmptyString) as [He | _];
      [contradiction |].
    rewrite Hok. cbn [isInvalidDate].
    match goal with
    | |- context [updateStrings tmpNow p ?d0 w0] =>
        destruct (updateStrings_cases tmpNow p d0 w0)
          as (_ & [(Hlt & _) | (_ & _ & Hp & _)])
    end.
    - cbn [setCutoff timestamp] in Hlt.
      rewrite diff_is_gap in Hlt. cbn [gapSeconds ltb] in Hlt.
      apply Z.ltb_lt in Hlt. lia.
    - split; [| reflexivity].
      rewrite Hp. cbn [setCutoff setOldWhen timeouts data].
      unfold survivors. cbn [existsb negb].
      apply filter_keeps_all. apply Forall_forall. reflexivity. }
  destruct Hmount as (Hold & Hpend & Htext).
  assert (Hrun : forall es' j,
            Forall (fun e => match snd e with
                             | Updated p' => when p' = when p
                             | TimerFired _ => True
                             end) es' ->
            state j = state i0 -> host j = host i0 ->
            state (run newDate fdate ftime (nextId w0) es' j) = state i0 /\
            host (run newDate fdate ftime (nextId w0) es' j) = host i0).
  { induction es' as [| [now' e] rest IH]; intros j Hall Hs Hh; cbn [run].
    - split; assumption.
    - inversion Hall as [| x l He Hrest]; subst x l. cbn [snd] in He.
      apply IH; [exact Hrest | |]; destruct e as [p' | h]; cbn [step].
      + cbn [state]. unfold updated, preset.
        rewrite Hs, Hold, He, String.eqb_refl. reflexivity.
      + destruct (Nat.leb_spec (nextId w0) h) as [Hle | Hgt];
          cbn [andb]; [| exact Hs].
        replace (isPending h (host j)) with false; [exact Hs |].
        symmetry. unfold isPending. rewrite Hh, Hpend.
        destruct (existsb (fun t => Nat.eqb (fst t) h) (pending w0)) eqn:E;
          [| reflexivity].
        apply existsb_exists in E. destruct E as (t & Ht & Heq).
        apply Nat.eqb_eq in Heq.
        assert ((fst t < nextId w0)%nat)
          by exact (proj1 (Forall_forall _ _) Hfresh t Ht).
        lia.
      + cbn [host]. unfold updated, preset.
        rewrite Hs, Hold, He, String.eqb_refl. cbn [snd]. exact Hh.
      + destruct (Nat.leb_spec (nextId w0) h) as [Hle | Hgt];
          cbn [andb]; [| exact Hh].
        replace (isPending h (host j)) with false; [exact Hh |].
        symmetry. unfold isPending. rewrite Hh, Hpend.
        destruct (existsb (fun t => Nat.eqb (fst t) h) (pending w0)) eqn:E;
          [| reflexivity].
        apply existsb_exists in E. destruct E as (t & Ht & Heq).
        apply Nat.eqb_eq in Heq.
        assert ((fst t < nextId w0)%nat)
          by exact (proj1 (Forall_forall _ _) Hfresh t Ht).
        lia. }
  destruct (Hrun es i0 Hes eq_refl eq_refl) as [Hs Hh].
  fold i in Hs, Hh.
  split; [exact Hs |]. split; [exact Hh |].
  split; [rewrite Hh; exact Hpend |].
  rewrite Hs. exact Htext.
Qed.

Lemma far_cutoff_is_never_refreshed_witness :
  dynamicDuration
    (state (run Scenario.newDate Scenario.toLocaleDateString
                Scenario.toLocaleTimeString (nextId Scenario.world)
                [(50000000, TimerFired 5%nat);
                 (50000000, Updated (Scenario.props "1970-01-01T02:01:02Z"))]
                (mount Scenario.newDate Scenario.toLocaleDateString
                       Scenario.toLocaleTimeString (-28800000)
                       (Scenario.props "1970-01-01T02:01:02Z")
                       Scenario.world)))
  = "10 hours".
Proof.
  apply (far_cutoff_is_never_refreshed
           Scenario.newDate Scenario.toLocaleDateString
           Scenario.toLocaleTimeString (-28800000)
           (Scenario.props "1970-01-01T02:01:02Z") Scenario.world 7262000
           [(50000000, TimerFired 5%nat);
            (50000000, Updated (Scenario.props "1970-01-01T02:01:02Z"))]).
  - simpl. repeat constructor.
  - simpl. discriminate.
  - reflexivity.
  - vm_compute. discriminate.
  - repeat constructor.
Defined.

End DisplayProperties.
